(** * xmlwrapp: the tree-building parser and its error protocol

    A shallow embedding of [src/libxml/utility.cxx] ([printf2string]) and of
    [src/libxml/tree_parser.cxx] ([tree_impl], the SAX callbacks and the two
    [tree_parser] constructors), with the properties the specification states
    about them.

    The C library ([vsnprintf], [strlen], [fopen]) and libxml2 (the SAX
    parsers) are not part of the repository: the formatting function is a
    section variable, and a run of the XML library is a value (the callbacks
    it fires, in order, and what it returns), over which the theorems
    quantify. *)

From Stdlib Require Import ZArith Bool Lia DecimalString String Ascii List.
Import ListNotations.

Local Open Scope Z_scope.

(** ** C data *)

(** One argument of a [va_list]. *)
Inductive va_arg : Type :=
| VaInt (n : Z)
| VaChar (c : ascii)
| VaStr (s : string).

Definition va_list : Type := list va_arg.

(** The NUL byte and the newline character. *)
Definition NUL : ascii := Ascii.zero.
Definition NL : ascii := ascii_of_nat 10.

Definition is_NUL (c : ascii) : bool := Ascii.eqb c NUL.

(** [INT_MAX] of a 32-bit [int], the return type of [vsnprintf]. *)
Definition INT_MAX : Z := 2 ^ 31 - 1.

(** [std::string::size_type] is an unsigned 64-bit integer: subtraction wraps. *)
Definition SIZE_MODULUS : Z := 2 ^ 64.
Definition size_sub (a b : Z) : Z := (a - b) mod SIZE_MODULUS.

(** A formatting function: the text a printf-style format expands to with the
    given arguments, or [None] when the C library reports an output error. *)
Definition formatter : Type := string -> va_list -> option (list ascii).

(** A formatter for the directives [%%], [%c], [%s] and [%d]; any other
    directive, or a missing or ill-typed argument, is an error.  The format
    is a C string: it ends at its first NUL. *)
Fixpoint vformat_subset (message : string) (ap : va_list) : option (list ascii) :=
  match message with
  | EmptyString => Some []
  | String c rest =>
      if is_NUL c then Some []
      else if Ascii.eqb c "%"%char then
        match rest with
        | String d rest' =>
            if Ascii.eqb d "%"%char then
              option_map (cons "%"%char) (vformat_subset rest' ap)
            else if Ascii.eqb d "c"%char then
              match ap with
              | VaChar x :: ap' => option_map (cons x) (vformat_subset rest' ap')
              | _ => None
              end
            else if Ascii.eqb d "s"%char then
              match ap with
              | VaStr x :: ap' =>
                  option_map (app (list_ascii_of_string x)) (vformat_subset rest' ap')
              | _ => None
              end
            else if Ascii.eqb d "d"%char then
              match ap with
              | VaInt x :: ap' =>
                  option_map
                    (app (list_ascii_of_string (NilZero.string_of_int (Z.to_int x))))
                    (vformat_subset rest' ap')
              | _ => None
              end
            else None
        | EmptyString => None
        end
      else option_map (cons c) (vformat_subset rest ap)
  end.

(** ** Reads of a fixed-size buffer *)

(** The result of code that reads a C array: a value, or a read at an index
    outside the array (undefined behaviour in C). *)
Inductive access (A : Type) : Type :=
| InBounds (a : A)
| OutOfBounds (index : Z).

Arguments InBounds {A} a.
Arguments OutOfBounds {A} index.

Definition access_bind {A B : Type} (m : access A) (k : A -> access B) : access B :=
  match m with
  | InBounds a => k a
  | OutOfBounds i => OutOfBounds i
  end.

Declare Scope access_scope.
Delimit Scope access_scope with access.
Notation "x <- m ;; k" := (access_bind m (fun x => k))
  (at level 61, m at next level, right associativity) : access_scope.

(** [buffer[i]]. *)
Definition buffer_read (buffer : list ascii) (i : Z) : access ascii :=
  if (0 <=? i) && (i <? Z.of_nat (length buffer)) then
    match nth_error buffer (Z.to_nat i) with
    | Some c => InBounds c
    | None => OutOfBounds i
    end
  else OutOfBounds i.

(** [strlen]: reads [buffer[i]], [buffer[i+1]], ... up to the first NUL; with
    no NUL in the array it reads past its end. *)
Fixpoint strlen_from (rest : list ascii) (i : Z) : access Z :=
  match rest with
  | [] => OutOfBounds i
  | c :: rest' => if is_NUL c then InBounds i else strlen_from rest' (i + 1)
  end.

Definition strlen (buffer : list ascii) : access Z := strlen_from buffer 0.

(** [s.assign(buffer, size)]: copies [buffer[0]] .. [buffer[size-1]]. *)
Definition string_assign (buffer : list ascii) (size : Z) : access string :=
  if size <=? Z.of_nat (length buffer) then
    InBounds (string_of_list_ascii (firstn (Z.to_nat size) buffer))
  else OutOfBounds (Z.of_nat (length buffer)).

(** ** [src/libxml/utility.cxx] *)

Module Utility.

Section Printf2String.

(** The formatting done by the C library's [vsnprintf]. *)
Variable vformat : formatter.

(** [sizeof(buffer)] for [char buffer[512]]. *)
Definition BUFFER_SIZE : nat := 512.

(** [std::memset(buffer, 0, sizeof(buffer))]. *)
Definition memset_zero (n : nat) : list ascii := repeat NUL n.

(** C99 [vsnprintf(buffer, n, message, ap)]: at most [n-1] characters of the
    formatted text are stored, followed by a NUL; the value returned is the
    length of the whole formatted text, or a negative number on an output
    error or when that length does not fit an [int].  (Under MSVC the source
    maps the name to [_vsnprintf]; this is the standard function.) *)
Definition vsnprintf (buffer : list ascii) (n : nat) (message : string) (ap : va_list)
  : Z * list ascii :=
  match vformat message ap with
  | None => (-1, buffer)
  | Some out =>
      if Z.of_nat (length out) >? INT_MAX then (-1, buffer)
      else
        match n with
        | O => (Z.of_nat (length out), buffer)
        | S m =>
            let k := Nat.min (length out) m in
            (Z.of_nat (length out), firstn k out ++ NUL :: skipn (S k) buffer)
        end
  end.

(** [printf2string(s, message, ap)]; the result is the new value of [s]. *)
Definition printf2string (s : string) (message : string) (ap : va_list) : access string :=
  let buffer := memset_zero BUFFER_SIZE in
  let '(ret, buffer) := vsnprintf buffer BUFFER_SIZE message ap in
  if ret >? 0 then
    (size <- strlen buffer ;;
     c <- buffer_read buffer (size_sub size 1) ;;
     let size := if Ascii.eqb c NL then size_sub size 1 else size in
     string_assign buffer size)%access
  else InBounds s.

(** *** The contract in the specification's words *)

(** The C string a byte sequence holds: its bytes before the first NUL. *)
Fixpoint c_str (l : list ascii) : list ascii :=
  match l with
  | [] => []
  | c :: l' => if is_NUL c then [] else c :: c_str l'
  end.

(** A single trailing newline stripped if present. *)
Definition chomp (l : list ascii) : list ascii :=
  match rev l with
  | c :: r => if Ascii.eqb c NL then rev r else l
  | [] => l
  end.

(** The formatted message truncated to what a buffer of [n] bytes holds. *)
Definition truncate (n : nat) (out : list ascii) : list ascii := firstn (n - 1) out.

(** The 4.1 contract read literally: the formatted message, truncated, with a
    single trailing newline stripped; the output string unchanged when
    formatting yields zero or negative length. *)
Definition printf2string_spec (s : string) (message : string) (ap : va_list) : string :=
  match vformat message ap with
  | None => s
  | Some out =>
      if (0 <? Z.of_nat (length out)) && (Z.of_nat (length out) <=? INT_MAX)
      then string_of_list_ascii (chomp (truncate BUFFER_SIZE out))
      else s
  end.

(** The same contract over the C string the buffer holds, the formatted
    message cut at its first NUL. *)
Definition printf2string_c_spec (s : string) (message : string) (ap : va_list) : string :=
  match vformat message ap with
  | None => s
  | Some out =>
      if (0 <? Z.of_nat (length out)) && (Z.of_nat (length out) <=? INT_MAX)
      then string_of_list_ascii (chomp (c_str (truncate BUFFER_SIZE out)))
      else s
  end.

(** The formatted message begins with a NUL byte. *)
Definition leading_NUL (message : string) (ap : va_list) : bool :=
  match vformat message ap with
  | Some (c :: _) => is_NUL c
  | _ => false
  end.

End Printf2String.

End Utility.

(** ** [src/libxml/tree_parser.cxx] *)

Module TreeParser.

(** An [xmlDocPtr]: the address of a tree built by libxml2, or the null
    pointer ([None]). *)
Definition xmlDoc : Type := nat.
Definition xmlDocPtr : Type := option xmlDoc.

(** Modelled from the spec: the document handle [xml::document], whose source
    ([document.cxx]) is not among the files.  It is "empty until parse
    succeeds" and can "take ownership of a completed tree". *)
Record document : Type := { doc_data : xmlDocPtr }.

Definition document_empty : document := {| doc_data := None |}.

Definition set_doc_data (d : xmlDocPtr) (doc : document) : document :=
  {| doc_data := d |}.

(** The function a slot of the handler table points to. *)
Inductive sax_callback : Type :=
| libxml_default_handler
| ptr_cb_tree_warning
| ptr_cb_tree_error
| ptr_cb_tree_ignore.

(** The slots of [xmlSAXHandler] this file assigns. *)
Record xmlSAXHandler : Type := {
  sax_warning : sax_callback;
  sax_error : sax_callback;
  sax_fatalError : sax_callback;
  sax_ignorableWhitespace : sax_callback
}.

(** [struct impl::tree_impl]. *)
Record tree_impl : Type := {
  doc_ : document;
  sax_ : xmlSAXHandler;
  last_error_ : string;
  warnings_ : bool;
  okay_ : bool
}.

Definition set_doc_ (d : document) (p : tree_impl) : tree_impl :=
  {| doc_ := d; sax_ := sax_ p; last_error_ := last_error_ p;
     warnings_ := warnings_ p; okay_ := okay_ p |}.

Definition set_last_error_ (s : string) (p : tree_impl) : tree_impl :=
  {| doc_ := doc_ p; sax_ := sax_ p; last_error_ := s;
     warnings_ := warnings_ p; okay_ := okay_ p |}.

Definition set_warnings_ (b : bool) (p : tree_impl) : tree_impl :=
  {| doc_ := doc_ p; sax_ := sax_ p; last_error_ := last_error_ p;
     warnings_ := b; okay_ := okay_ p |}.

Definition set_okay_ (b : bool) (p : tree_impl) : tree_impl :=
  {| doc_ := doc_ p; sax_ := sax_ p; last_error_ := last_error_ p;
     warnings_ := warnings_ p; okay_ := b |}.

Definition DEFAULT_ERROR : string := "unknown XML parsing error".

(** The string made of one double-quote character. *)
Definition DQUOTE : string := String (ascii_of_nat 34) EmptyString.

(** The C++ exceptions the constructors throw. *)
Inductive exn : Type :=
| xml_exception (what : string)
| std_bad_alloc.

(** Calls into libxml2 and the C library that release or probe a resource,
    and the destruction of the session by its [auto_ptr]. *)
Inductive call : Type :=
| call_xmlStopParser
| call_xmlFreeDoc (d : xmlDocPtr)
| call_xmlFree_sax
| call_xmlFreeParserCtxt
| call_fopen (name : string)
| call_fclose
| call_delete_tree_impl.

(** The state a constructor works on: the session [*pimpl_] and the calls
    made so far, oldest first. *)
Record world : Type := { pimpl : tree_impl; trace : list call }.

Definition on_pimpl (f : tree_impl -> tree_impl) (w : world) : world :=
  {| pimpl := f (pimpl w); trace := trace w |}.

Definition log (c : call) (w : world) : world :=
  {| pimpl := pimpl w; trace := trace w ++ [c] |}.

(** How a piece of C++ code ends: it returns, it throws, or it has read
    outside an array. *)
Inductive outcome (A : Type) : Type :=
| Return (a : A) (w : world)
| Throw (e : exn) (w : world)
| Undefined (index : Z).

Arguments Return {A} a w.
Arguments Throw {A} e w.
Arguments Undefined {A} index.

Definition M (A : Type) : Type := world -> outcome A.

Definition ret {A : Type} (a : A) : M A := fun w => Return a w.

Definition bind {A B : Type} (m : M A) (k : A -> M B) : M B :=
  fun w =>
    match m w with
    | Return a w' => k a w'
    | Throw e w' => Throw e w'
    | Undefined i => Undefined i
    end.

Declare Scope cxx_scope.
Delimit Scope cxx_scope with cxx.
Notation "x <- m ;; k" := (bind m (fun x => k))
  (at level 61, m at next level, right associativity) : cxx_scope.
Notation "m ;; k" := (bind m (fun _ => k))
  (at level 61, right associativity) : cxx_scope.

Definition get : M tree_impl := fun w => Return (pimpl w) w.
Definition modify (f : tree_impl -> tree_impl) : M unit := fun w => Return tt (on_pimpl f w).
Definition do_call (c : call) : M unit := fun w => Return tt (log c w).
Definition throw {A : Type} (e : exn) : M A := fun w => Throw e w.
Definition when (b : bool) (m : M unit) : M unit := if b then m else ret tt.

(** [try { body } catch (...) {}]. *)
Definition try_catch_all (body : M unit) : M unit :=
  fun w =>
    match body w with
    | Throw _ w' => Return tt w'
    | r => r
    end.

(** The scope of [std::auto_ptr<tree_impl> ap]: an exception that leaves it
    before [ap.release()] deletes the session. *)
Definition auto_ptr_scope {A : Type} (body : M A) : M A :=
  fun w =>
    match body w with
    | Throw e w' => Throw e (log call_delete_tree_impl w')
    | r => r
    end.

(** Code that reads a buffer, run inside the constructor. *)
Definition lift_access {A : Type} (m : access A) : M A :=
  fun w =>
    match m with
    | InBounds a => Return a w
    | OutOfBounds i => Undefined i
    end.

(** A callback fired by libxml2.  [private_set] tells whether
    [ctxt->_private] already points to the session when the callback fires
    (older versions of libxml2 call the handlers before it does). *)
Inductive sax_event : Type :=
| ev_warning (private_set : bool) (message : string) (ap : va_list)
| ev_error (private_set : bool) (message : string) (ap : va_list)
| ev_fatalError (private_set : bool) (message : string) (ap : va_list)
| ev_ignorableWhitespace.

(** What [xmlSAXParseFileWithData] does for a file name: the callbacks it
    fires and the tree it returns; and whether [fopen(name, "r")] succeeds
    afterwards. *)
Record file_run : Type := {
  file_events : list sax_event;
  file_doc : xmlDocPtr;
  file_fopen : bool
}.

(** What libxml2 does for a memory buffer: whether
    [xmlCreateMemoryParserCtxt] returns a context, whether that context
    comes with a handler table of its own, the callbacks [xmlParseDocument]
    fires, its return value, and the context's [wellFormed] and [myDoc]
    afterwards. *)
Record memory_run : Type := {
  ctxt_created : bool;
  ctxt_has_sax : bool;
  memory_events : list sax_event;
  parse_retval : Z;
  ctxt_wellFormed : Z;
  ctxt_myDoc : xmlDocPtr
}.

(** The object a constructor builds. *)
Record tree_parser : Type := { pimpl_ : tree_impl }.

Section Parser.

Variable vformat : formatter.

(** libxml2's global [xmlKeepBlanksDefaultValue]. *)
Variable xmlKeepBlanksDefaultValue : Z.

(** The behaviour of libxml2 on a file name, and on a buffer and its size. *)
Variable libxml_file : string -> file_run.
Variable libxml_memory : string -> Z -> memory_run.

(** [cb_tree_error(v, message, ...)], with [p_set] for [ctxt->_private != 0]. *)
Definition cb_tree_error (p_set : bool) (message : string) (ap : va_list) : M unit :=
  try_catch_all
    (if negb p_set then ret tt
     else
       (modify (set_okay_ false) ;;
        p <- get ;;
        s <- lift_access (Utility.printf2string vformat (last_error_ p) message ap) ;;
        modify (set_last_error_ s) ;;
        do_call call_xmlStopParser)%cxx).

(** [cb_tree_warning(v, message, ...)]. *)
Definition cb_tree_warning (p_set : bool) (message : string) (ap : va_list) : M unit :=
  try_catch_all
    (if negb p_set then ret tt
     else modify (set_warnings_ true)).

(** [cb_tree_ignore]. *)
Definition cb_tree_ignore : M unit := ret tt.

(** [impl::tree_impl::tree_impl()]: libxml2's default table with the three
    message slots, and the whitespace slot when blanks are not kept,
    overridden. *)
Definition tree_impl_ctor : tree_impl :=
  {| doc_ := document_empty;
     sax_ := {| sax_warning := ptr_cb_tree_warning;
                sax_error := ptr_cb_tree_error;
                sax_fatalError := ptr_cb_tree_error;
                sax_ignorableWhitespace :=
                  if xmlKeepBlanksDefaultValue =? 0 then ptr_cb_tree_ignore
                  else libxml_default_handler |};
     last_error_ := DEFAULT_ERROR;
     warnings_ := false;
     okay_ := false |}.

(** A call through a message slot of the table. *)
Definition call_message_slot (h : sax_callback) (p_set : bool) (message : string)
  (ap : va_list) : M unit :=
  match h with
  | ptr_cb_tree_warning => cb_tree_warning p_set message ap
  | ptr_cb_tree_error => cb_tree_error p_set message ap
  | ptr_cb_tree_ignore => ret tt
  | libxml_default_handler => ret tt
  end.

(** libxml2 fires one callback through the session's table; [wired] tells
    that the constructor itself has set [ctxt->_private]. *)
Definition fire (wired : bool) (ev : sax_event) : M unit :=
  (p <- get ;;
   match ev with
   | ev_warning p_set message ap =>
       call_message_slot (sax_warning (sax_ p)) (wired || p_set) message ap
   | ev_error p_set message ap =>
       call_message_slot (sax_error (sax_ p)) (wired || p_set) message ap
   | ev_fatalError p_set message ap =>
       call_message_slot (sax_fatalError (sax_ p)) (wired || p_set) message ap
   | ev_ignorableWhitespace =>
       match sax_ignorableWhitespace (sax_ p) with
       | ptr_cb_tree_ignore => cb_tree_ignore
       | _ => ret tt
       end
   end)%cxx.

Fixpoint fire_all (wired : bool) (evs : list sax_event) : M unit :=
  match evs with
  | [] => ret tt
  | ev :: evs' => (fire wired ev ;; fire_all wired evs')%cxx
  end.

(** [xmlSAXParseFileWithData(&sax_, name, 0, pimpl_)]. *)
Definition xmlSAXParseFileWithData (name : string) : M xmlDocPtr :=
  (fire_all false (file_events (libxml_file name)) ;;
   ret (file_doc (libxml_file name)))%cxx.

(** [fopen(name, "r")]; the result tells whether the stream is non-null. *)
Definition fopen (name : string) : M bool :=
  (do_call (call_fopen name) ;; ret (file_fopen (libxml_file name)))%cxx.

Definition is_null (d : xmlDocPtr) : bool :=
  match d with Some _ => false | None => true end.

Definition new_tree_impl : world := {| pimpl := tree_impl_ctor; trace := [] |}.

(** [tree_parser::tree_parser(const char *name, bool allow_exceptions)]. *)
Definition tree_parser_file (name : string) (allow_exceptions : bool) : outcome tree_parser :=
  auto_ptr_scope
    (modify (set_okay_ true) ;;
     tmpdoc <- xmlSAXParseFileWithData name ;;
     p <- get ;;
     (if negb (is_null tmpdoc) && okay_ p then
        modify (fun p => set_doc_ (set_doc_data tmpdoc (doc_ p)) p)
      else
        (when (String.eqb (last_error_ p) DEFAULT_ERROR)
           (test <- fopen name ;;
            if negb test then
              modify (set_last_error_ ("failed to open file " ++ DQUOTE)%string) ;;
              modify (fun p => set_last_error_ (last_error_ p ++ name)%string p) ;;
              modify (fun p => set_last_error_ (last_error_ p ++ DQUOTE)%string p)
            else do_call call_fclose) ;;
         when (negb (is_null tmpdoc)) (do_call (call_xmlFreeDoc tmpdoc)) ;;
         modify (set_okay_ false) ;;
         p <- get ;;
         when allow_exceptions (throw (xml_exception (last_error_ p))))) ;;
     p <- get ;;
     ret {| pimpl_ := p |})%cxx
    new_tree_impl.

(** [xmlParseDocument(ctxt)], after the constructor has installed the
    session's table and set [ctxt->_private]. *)
Definition xmlParseDocument (lib : memory_run) : M Z :=
  (fire_all true (memory_events lib) ;; ret (parse_retval lib))%cxx.

(** [tree_parser::tree_parser(const char *data, size_type size,
    bool allow_exceptions)]. *)
Definition tree_parser_memory (data : string) (size : Z) (allow_exceptions : bool)
  : outcome tree_parser :=
  let lib := libxml_memory data size in
  auto_ptr_scope
    (when (negb (ctxt_created lib)) (throw std_bad_alloc) ;;
     when (ctxt_has_sax lib) (do_call call_xmlFree_sax) ;;
     modify (set_okay_ true) ;;
     retval <- xmlParseDocument lib ;;
     p <- get ;;
     if (ctxt_wellFormed lib =? 0) || negb (retval =? 0) || negb (okay_ p) then
       do_call (call_xmlFreeDoc (ctxt_myDoc lib)) ;;
       do_call call_xmlFreeParserCtxt ;;
       modify (set_okay_ false) ;;
       p <- get ;;
       when allow_exceptions (throw (xml_exception (last_error_ p))) ;;
       p <- get ;;
       ret {| pimpl_ := p |}
     else
       modify (fun p => set_doc_ (set_doc_data (ctxt_myDoc lib) (doc_ p)) p) ;;
       modify (set_okay_ true) ;;
       do_call call_xmlFreeParserCtxt ;;
       p <- get ;;
       ret {| pimpl_ := p |})%cxx
    new_tree_impl.

(** [tree_parser::operator!]. *)
Definition failed (t : tree_parser) : bool := negb (okay_ (pimpl_ t)).

(** [tree_parser::get_error_message]. *)
Definition get_error_message (t : tree_parser) : string := last_error_ (pimpl_ t).

(** [tree_parser::had_warnings]. *)
Definition had_warnings (t : tree_parser) : bool := warnings_ (pimpl_ t).

(** [tree_parser::get_document]. *)
Definition get_document (t : tree_parser) : document := doc_ (pimpl_ t).

(** *** The two constructors as one operation *)

(** What a [tree_parser] is constructed from. *)
Inductive input : Type :=
| from_file (name : string)
| from_memory (data : string) (size : Z).

Definition construct (i : input) (allow_exceptions : bool) : outcome tree_parser :=
  match i with
  | from_file name => tree_parser_file name allow_exceptions
  | from_memory data size => tree_parser_memory data size allow_exceptions
  end.

(** The callbacks libxml2 fires for an input. *)
Definition events_of (i : input) : list sax_event :=
  match i with
  | from_file name => file_events (libxml_file name)
  | from_memory data size => memory_events (libxml_memory data size)
  end.

(** The tree libxml2 hands back: [tmpdoc], or [ctxt->myDoc]. *)
Definition library_tree (i : input) : xmlDocPtr :=
  match i with
  | from_file name => file_doc (libxml_file name)
  | from_memory data size => ctxt_myDoc (libxml_memory data size)
  end.

(** The session at the point where libxml2 returns from the parse: the
    constructor up to and including the call of the parser. *)
Definition parse_session (i : input) : outcome unit :=
  match i with
  | from_file name =>
      (modify (set_okay_ true) ;;
       fire_all false (file_events (libxml_file name)))%cxx new_tree_impl
  | from_memory data size =>
      let lib := libxml_memory data size in
      (when (negb (ctxt_created lib)) (throw std_bad_alloc) ;;
       when (ctxt_has_sax lib) (do_call call_xmlFree_sax) ;;
       modify (set_okay_ true) ;;
       fire_all true (memory_events lib))%cxx new_tree_impl
  end.

(** The test each constructor makes on return from the parser: the parse
    did not yield a usable tree. *)
Definition parse_failed (i : input) (p : tree_impl) : bool :=
  match i with
  | from_file name =>
      negb (negb (is_null (file_doc (libxml_file name))) && okay_ p)
  | from_memory data size =>
      let lib := libxml_memory data size in
      (ctxt_wellFormed lib =? 0) || negb (parse_retval lib =? 0) || negb (okay_ p)
  end.

Definition is_file (i : input) : bool :=
  match i with from_file _ => true | from_memory _ _ => false end.

(** *** What a caller observes *)

(** The error text a construction reports: through [get_error_message] on
    the object, or carried by the exception. *)
Definition reported_error (r : outcome tree_parser) : option string :=
  match r with
  | Return t _ => Some (get_error_message t)
  | Throw (xml_exception what) _ => Some what
  | Throw std_bad_alloc _ => None
  | Undefined _ => None
  end.

(** The calls a construction has made. *)
Definition calls_made {A : Type} (r : outcome A) : list call :=
  match r with
  | Return _ w => trace w
  | Throw _ w => trace w
  | Undefined _ => []
  end.

(** The session a construction leaves. *)
Definition session_of {A : Type} (r : outcome A) : option tree_impl :=
  match r with
  | Return _ w => Some (pimpl w)
  | Throw _ w => Some (pimpl w)
  | Undefined _ => None
  end.




(** *** The history of [last_error_] during a parse *)

(** The value of [last_error_] after each callback. *)
Fixpoint last_error_history (wired : bool) (evs : list sax_event) (w : world)
  : list string :=
  match evs with
  | [] => []
  | ev :: evs' =>
      match fire wired ev w with
      | Return _ w' => last_error_ (pimpl w') :: last_error_history wired evs' w'
      | _ => []
      end
  end.

(** How many times a history changes value, starting from [prev]. *)
Fixpoint overwrites (prev : string) (history : list string) : nat :=
  match history with
  | [] => O
  | s :: history' =>
      ((if String.eqb prev s then 0 else 1) + overwrites s history')%nat
  end.

Definition is_error_event (ev : sax_event) : bool :=
  match ev with
  | ev_error _ _ _ => true
  | ev_fatalError _ _ _ => true
  | _ => false
  end.

Definition error_events (evs : list sax_event) : nat :=
  length (filter is_error_event evs).

(** The session when the parse starts. *)
Definition parse_start : world := on_pimpl (set_okay_ true) new_tree_impl.

End Parser.

End TreeParser.

(** ** Sample behaviours of the libraries *)

Module Examples.

Import TreeParser.

(** libxml2 on a well-formed buffer: no callback, a tree. *)
Definition well_formed_run : memory_run :=
  {| ctxt_created := true; ctxt_has_sax := true; memory_events := [];
     parse_retval := 0; ctxt_wellFormed := 1; ctxt_myDoc := Some 1%nat |}.

(** libxml2 on a buffer with a mismatched tag: a fatal error, and the part
    of the tree built so far. *)
Definition mismatched_tag_run : memory_run :=
  {| ctxt_created := true; ctxt_has_sax := true;
     memory_events :=
       [ev_fatalError true "Opening and ending tag mismatch: %s line %d and %s
" [VaStr "b"; VaInt 1; VaStr "a"]];
     parse_retval := -1; ctxt_wellFormed := 0; ctxt_myDoc := Some 2%nat |}.


(** [xmlCreateMemoryParserCtxt] returns the null pointer. *)
Definition no_context_run : memory_run :=
  {| ctxt_created := false; ctxt_has_sax := false; memory_events := [];
     parse_retval := 0; ctxt_wellFormed := 0; ctxt_myDoc := None |}.

(** A file that does not exist: no callback, no tree, [fopen] fails. *)
Definition missing_file_run : file_run :=
  {| file_events := []; file_doc := None; file_fopen := false |}.

(** A file with content after the root element: a warning, an error, and a
    tree all the same. *)
Definition extra_content_run : file_run :=
  {| file_events :=
       [ev_warning true "xmlns: URI %s is not absolute
" [VaStr "x"];
        ev_error true "Extra content at the end of the document
" []];
     file_doc := Some 3%nat; file_fopen := true |}.

(** Two error callbacks in a row: the parser did not stop at the first. *)
Definition two_errors : list sax_event :=
  [ev_error true "first" []; ev_fatalError true "second" []].

Definition libxml_file_example (name : string) : file_run :=
  if String.eqb name "missing.xml" then missing_file_run else extra_content_run.

(** libxml2 creates no context for an empty buffer. *)
Definition libxml_memory_example (data : string) (size : Z) : memory_run :=
  if size <=? 0 then no_context_run
  else if String.eqb data "<a><b/></a>" then well_formed_run
  else mismatched_tag_run.

End Examples.

(** ** Bookkeeping on the calls and the callbacks of a parse *)

Module Resources.

Import TreeParser.

Definition is_xmlFreeDoc (c : call) : bool :=
  match c with call_xmlFreeDoc _ => true | _ => false end.

Definition is_xmlFreeParserCtxt (c : call) : bool :=
  match c with call_xmlFreeParserCtxt => true | _ => false end.

Definition is_fopen (c : call) : bool :=
  match c with call_fopen _ => true | _ => false end.

Definition is_fclose (c : call) : bool :=
  match c with call_fclose => true | _ => false end.

Definition is_delete_tree_impl (c : call) : bool :=
  match c with call_delete_tree_impl => true | _ => false end.

(** How many of the calls made satisfy [f]. *)
Definition count (f : call -> bool) (cs : list call) : nat := length (filter f cs).

(** The callback finds the session: it is not the whitespace callback, and
    [ctxt->_private] is set when it fires. *)
Definition reaches_session (wired : bool) (ev : sax_event) : bool :=
  match ev with
  | ev_warning p_set _ _ => wired || p_set
  | ev_error p_set _ _ => wired || p_set
  | ev_fatalError p_set _ _ => wired || p_set
  | ev_ignorableWhitespace => false
  end.

Definition is_warning_event (ev : sax_event) : bool :=
  match ev with ev_warning _ _ _ => true | _ => false end.

(** The memory constructor sets [ctxt->_private] itself; the file
    constructor leaves it to libxml2. *)
Definition wired (i : input) : bool := negb (is_file i).

(** An error (a warning) callback that finds the session fires in [evs]. *)
Definition error_reached (w : bool) (evs : list sax_event) : bool :=
  existsb (fun ev => is_error_event ev && reaches_session w ev) evs.

Definition warning_reached (w : bool) (evs : list sax_event) : bool :=
  existsb (fun ev => is_warning_event ev && reaches_session w ev) evs.

(** What decides failure once the parser has returned: the library's
    verdict (no tree; for memory, not well-formed or a nonzero return value)
    or an error callback that found the session. *)
Definition failure_condition (libxml_file : string -> file_run)
  (libxml_memory : string -> Z -> memory_run) (i : input) : bool :=
  match i with
  | from_file name =>
      is_null (file_doc (libxml_file name))
      || error_reached false (file_events (libxml_file name))
  | from_memory data size =>
      let lib := libxml_memory data size in
      (ctxt_wellFormed lib =? 0) || negb (parse_retval lib =? 0)
      || error_reached true (memory_events lib)
  end.

(** The context of the memory constructor exists. *)
Definition context_created (libxml_memory : string -> Z -> memory_run) (i : input)
  : bool :=
  match i with
  | from_file _ => true
  | from_memory data size => ctxt_created (libxml_memory data size)
  end.

End Resources.

(** ** [src/libxslt/stylesheet.cxx] *)

Module Stylesheet.

(** An [xsltStylesheetPtr]: the address of a compiled stylesheet, or null. *)
Definition xsltStylesheetPtr : Type := option nat.

(** [xsltTransformState], the [state] field of a transformation context. *)
Inductive xsltTransformState : Type :=
| XSLT_STATE_OK
| XSLT_STATE_ERROR
| XSLT_STATE_STOPPED.

(** Modelled from the spec: the operations of the document handle
    [xml::document] that this file calls ([document.cxx] is not among the
    files): read access to the tree, "explicit one-time ownership release"
    after which "the handle is empty", and taking the tree of a
    transformation. *)
Definition get_doc_data (d : TreeParser.document) : TreeParser.xmlDocPtr :=
  TreeParser.doc_data d.

Definition get_doc_data_read_only (d : TreeParser.document) : TreeParser.xmlDocPtr :=
  TreeParser.doc_data d.

Definition release_doc_data (d : TreeParser.document) : TreeParser.document :=
  TreeParser.document_empty.

(** [struct xslt::stylesheet::pimpl]. *)
Record pimpl : Type := {
  ss_ : xsltStylesheetPtr;
  doc_ : TreeParser.document;
  error_ : string;
  errors_occured_ : bool
}.

(** [pimpl::pimpl()]. *)
Definition pimpl_ctor : pimpl :=
  {| ss_ := None; doc_ := TreeParser.document_empty;
     error_ := EmptyString; errors_occured_ := false |}.

Definition set_ss_ (x : xsltStylesheetPtr) (p : pimpl) : pimpl :=
  {| ss_ := x; doc_ := doc_ p; error_ := error_ p;
     errors_occured_ := errors_occured_ p |}.

Definition set_doc_ (d : TreeParser.document) (p : pimpl) : pimpl :=
  {| ss_ := ss_ p; doc_ := d; error_ := error_ p;
     errors_occured_ := errors_occured_ p |}.

Definition set_error_ (e : string) (p : pimpl) : pimpl :=
  {| ss_ := ss_ p; doc_ := doc_ p; error_ := e;
     errors_occured_ := errors_occured_ p |}.

Definition set_errors_occured_ (b : bool) (p : pimpl) : pimpl :=
  {| ss_ := ss_ p; doc_ := doc_ p; error_ := error_ p;
     errors_occured_ := b |}.

(** [error_.append(x)]. *)
Definition append_error_ (x : string) (p : pimpl) : pimpl :=
  set_error_ (error_ p ++ x)%string p.

(** [class result_impl]: the two pointers it is given. *)
Record result_impl : Type := {
  result_doc : TreeParser.xmlDocPtr;
  result_ss : xsltStylesheetPtr
}.

(** Modelled from the spec: [document::set_doc_data_from_xslt], which takes
    the tree of a transformation into the handle. *)
Definition set_doc_data_from_xslt (x : TreeParser.xmlDocPtr) (r : result_impl)
  (d : TreeParser.document) : TreeParser.document :=
  TreeParser.set_doc_data x d.

(** [xslt::stylesheet::param_type]: the entries of the map, in the order
    its iterator visits them. *)
Definition param_type : Type := list (string * string).

(** A [const char*]: a C string, or the null pointer. *)
Definition c_string_ptr : Type := option string.

(** The loop of [make_vector_param]. *)
Fixpoint push_params (v : list c_string_ptr) (p : param_type) : list c_string_ptr :=
  match p with
  | [] => v
  | (name, value) :: p' => push_params ((v ++ [Some name]) ++ [Some value]) p'
  end.

(** [make_vector_param(v, p)]; the result is [v] afterwards. *)
Definition make_vector_param (v : list c_string_ptr) (p : param_type)
  : list c_string_ptr :=
  push_params v p ++ [None].

Definition GENERIC_TRANSFORM_ERROR : string := "unknown XSLT transformation error".
Definition GENERIC_PARSER_ERROR : string := "unknown XSLT parser error".
Definition NEWLINE : string := String NL EmptyString.

(** The calls that hand over or release a resource; the destructor of the
    local tree parser is recorded with the tree its document handle holds
    at that point. *)
Inductive call : Type :=
| call_xsltParseStylesheetDoc (d : TreeParser.xmlDocPtr)
| call_xsltFreeTransformContext
| call_xmlFreeDoc (d : TreeParser.xmlDocPtr)
| call_delete_pimpl
| call_tree_parser_destructor (d : TreeParser.xmlDocPtr).

(** The state: [*pimpl_], the [state] field of the live transformation
    context ([None] when there is no context), and the calls made. *)
Record world : Type := {
  impl : pimpl;
  ctxt : option xsltTransformState;
  trace : list call
}.

Definition on_impl (f : pimpl -> pimpl) (w : world) : world :=
  {| impl := f (impl w); ctxt := ctxt w; trace := trace w |}.

Definition with_ctxt (c : option xsltTransformState) (w : world) : world :=
  {| impl := impl w; ctxt := c; trace := trace w |}.

Definition log (c : call) (w : world) : world :=
  {| impl := impl w; ctxt := ctxt w; trace := trace w ++ [c] |}.

(** The two kinds of undefined behaviour this file can reach. *)
Inductive fault : Type :=
| null_dereference
| out_of_bounds_read (index : Z).

Inductive outcome (A : Type) : Type :=
| Return (a : A) (w : world)
| Throw (e : TreeParser.exn) (w : world)
| Undefined (f : fault).

Arguments Return {A} a w.
Arguments Throw {A} e w.
Arguments Undefined {A} f.

Definition M (A : Type) : Type := world -> outcome A.

Definition ret {A : Type} (a : A) : M A := fun w => Return a w.

Definition bind {A B : Type} (m : M A) (k : A -> M B) : M B :=
  fun w =>
    match m w with
    | Return a w' => k a w'
    | Throw e w' => Throw e w'
    | Undefined f => Undefined f
    end.

Declare Scope xslt_scope.
Delimit Scope xslt_scope with xslt.
Notation "x <- m ;; k" := (bind m (fun x => k))
  (at level 61, m at next level, right associativity) : xslt_scope.
Notation "m ;; k" := (bind m (fun _ => k))
  (at level 61, right associativity) : xslt_scope.

Definition get : M pimpl := fun w => Return (impl w) w.
Definition modify (f : pimpl -> pimpl) : M unit := fun w => Return tt (on_impl f w).
Definition do_call (c : call) : M unit := fun w => Return tt (log c w).
Definition throw {A : Type} (e : TreeParser.exn) : M A := fun w => Throw e w.
Definition undefined {A : Type} (f : fault) : M A := fun _ => Undefined f.
Definition when (b : bool) (m : M unit) : M unit := if b then m else ret tt.

(** [ctxt->state], read through the context pointer. *)
Definition read_state : M xsltTransformState :=
  fun w =>
    match ctxt w with
    | Some st => Return st w
    | None => Undefined null_dereference
    end.

Definition write_ctxt (c : option xsltTransformState) : M unit :=
  fun w => Return tt (with_ctxt c w).

Definition lift_access {A : Type} (m : access A) : M A :=
  fun w =>
    match m with
    | InBounds a => Return a w
    | OutOfBounds i => Undefined (out_of_bounds_read i)
    end.

Definition auto_ptr_scope {A : Type} (body : M A) : M A :=
  fun w =>
    match body w with
    | Throw e w' => Throw e (log call_delete_pimpl w')
    | r => r
    end.

Definition is_OK (st : xsltTransformState) : bool :=
  match st with XSLT_STATE_OK => true | _ => false end.

Definition is_empty (s : string) : bool :=
  match s with EmptyString => true | _ => false end.

(** What libxslt does during [xsltApplyStylesheetUser]: it reports an error
    through the registered function, or it writes the [state] field of the
    context itself. *)
Inductive xslt_event : Type :=
| xev_error (message : string) (ap : va_list)
| xev_state (st : xsltTransformState).

(** A transformation as libxslt runs it: the [state] field of the context
    [xsltNewTransformContext] returns ([None] for a null context), what
    happens during [xsltApplyStylesheetUser], and the tree it returns. *)
Record xslt_run : Type := {
  new_ctxt : option xsltTransformState;
  xslt_events : list xslt_event;
  xslt_result : TreeParser.xmlDocPtr
}.

(** The object the constructors build. *)
Record stylesheet : Type := { pimpl_ : pimpl }.

(** Modelled from the spec: the default value of [allow_exceptions] in the
    declaration of [tree_parser] ([tree_parser.h] is not among the files):
    "parse-from-path(path, allow_exceptions=true)". *)
Definition allow_exceptions_default : bool := true.

Section Transform.

Variable vformat : formatter.
Variable xmlKeepBlanksDefaultValue : Z.
Variable libxml_file : string -> TreeParser.file_run.

(** [xsltParseStylesheetDoc(xmldoc)]. *)
Variable xsltParseStylesheetDoc : TreeParser.xmlDocPtr -> xsltStylesheetPtr.

(** libxslt on a stylesheet, an input tree and a parameter array ([None]
    for the null array). *)
Variable libxslt_apply :
  xsltStylesheetPtr -> TreeParser.xmlDocPtr -> option (list c_string_ptr) -> xslt_run.

(** [error_cb(c, message, ...)], with [c] the live context and
    [ctxt->_private] the session. *)
Definition error_cb (message : string) (ap : va_list) : M unit :=
  (st <- read_state ;;
   modify (set_errors_occured_ true) ;;
   when (is_OK st) (write_ctxt (Some XSLT_STATE_STOPPED)) ;;
   p <- get ;;
   when (errors_occured_ p) (modify (append_error_ NEWLINE)) ;;
   formatted <- lift_access (Utility.printf2string vformat EmptyString message ap) ;;
   modify (append_error_ formatted))%xslt.

Definition fire (ev : xslt_event) : M unit :=
  match ev with
  | xev_error message ap => error_cb message ap
  | xev_state st => (_ <- read_state ;; write_ctxt (Some st))%xslt
  end.

Fixpoint fire_all (evs : list xslt_event) : M unit :=
  match evs with
  | [] => ret tt
  | ev :: evs' => (fire ev ;; fire_all evs')%xslt
  end.

(** [apply_stylesheet(impl, doc, p)]. *)
Definition apply_stylesheet (doc : TreeParser.xmlDocPtr) (p : option param_type)
  : M TreeParser.xmlDocPtr :=
  (q <- get ;;
   let style := ss_ q in
   let v := match p with Some p => make_vector_param [] p | None => [] end in
   let lib := libxslt_apply style doc
                (match p with Some _ => Some v | None => None end) in
   match new_ctxt lib with
   | None => undefined null_dereference
   | Some st =>
       write_ctxt (Some st) ;;
       modify (set_errors_occured_ false) ;;
       fire_all (xslt_events lib) ;;
       let result := xslt_result lib in
       do_call call_xsltFreeTransformContext ;;
       write_ctxt None ;;
       q <- get ;;
       if negb (TreeParser.is_null result) && errors_occured_ q then
         do_call (call_xmlFreeDoc result) ;;
         ret None
       else if TreeParser.is_null result then
         when (is_empty (error_ q)) (modify (set_error_ GENERIC_TRANSFORM_ERROR)) ;;
         ret None
       else ret result
   end)%xslt.

Definition new_pimpl : world := {| impl := pimpl_ctor; ctxt := None; trace := [] |}.

(** The common part of the two constructors, from the call of
    [xsltParseStylesheetDoc] on. *)
Definition parse_stylesheet_doc (xmldoc : TreeParser.xmlDocPtr) : M unit :=
  (do_call (call_xsltParseStylesheetDoc xmldoc) ;;
   modify (set_ss_ (xsltParseStylesheetDoc xmldoc)) ;;
   q <- get ;;
   match ss_ q with
   | None =>
       when (is_empty (error_ q)) (modify (set_error_ GENERIC_PARSER_ERROR)) ;;
       q <- get ;;
       throw (TreeParser.xml_exception (error_ q))
   | Some _ => ret tt
   end)%xslt.

(** [xslt::stylesheet::stylesheet(xml::document doc)]; the second component
    is the by-value argument [doc] when the constructor returns. *)
Definition stylesheet_from_document (doc : TreeParser.document)
  : outcome (stylesheet * TreeParser.document) :=
  let xmldoc := get_doc_data doc in
  auto_ptr_scope
    (parse_stylesheet_doc xmldoc ;;
     let doc := release_doc_data doc in
     q <- get ;;
     ret ({| pimpl_ := q |}, doc))%xslt
    new_pimpl.

(** The local [xml::tree_parser parser(filename)]: its constructor, run to
    its end. *)
Definition construct_parser (filename : string) : M TreeParser.tree_parser :=
  fun w =>
    match TreeParser.tree_parser_file vformat xmlKeepBlanksDefaultValue libxml_file
            filename allow_exceptions_default with
    | TreeParser.Return t _ => Return t w
    | TreeParser.Throw e _ => Throw e w
    | TreeParser.Undefined i => Undefined (out_of_bounds_read i)
    end.

(** The scope of the local [parser]: its destructor runs when the scope is
    left.  On return the body gives the document handle of the parser as it
    then is; an exception leaves the body before the handle is released. *)
Definition parser_scope {A : Type} (parser : TreeParser.tree_parser)
  (body : M (A * TreeParser.document)) : M (A * TreeParser.document) :=
  fun w =>
    match body w with
    | Return (a, d) w' =>
        Return (a, d) (log (call_tree_parser_destructor (get_doc_data d)) w')
    | Throw e w' =>
        Throw e (log (call_tree_parser_destructor
                        (get_doc_data (TreeParser.get_document parser))) w')
    | Undefined f => Undefined f
    end.

(** [xslt::stylesheet::stylesheet(const char *filename)]; the second
    component is the document handle of [parser] when its scope is left. *)
Definition stylesheet_from_file (filename : string)
  : outcome (stylesheet * TreeParser.document) :=
  auto_ptr_scope
    (parser <- construct_parser filename ;;
     parser_scope parser
       (let xmldoc := get_doc_data (TreeParser.get_document parser) in
        parse_stylesheet_doc xmldoc ;;
        let doc := release_doc_data (TreeParser.get_document parser) in
        q <- get ;;
        ret ({| pimpl_ := q |}, doc)))%xslt
    new_pimpl.

(** [bool stylesheet::apply(doc, result)] and, with [Some p],
    [bool stylesheet::apply(doc, result, with_params)]; the second
    component is [result] afterwards. *)
Definition apply_into (doc result : TreeParser.document) (p : option param_type)
  : M (bool * TreeParser.document) :=
  (let input := get_doc_data_read_only doc in
   xmldoc <- apply_stylesheet input p ;;
   q <- get ;;
   if negb (TreeParser.is_null xmldoc) then
     ret (true,
          set_doc_data_from_xslt xmldoc
            {| result_doc := xmldoc; result_ss := ss_ q |} result)
   else ret (false, result))%xslt.

(** [xml::document& stylesheet::apply(doc)] and, with [Some p],
    [xml::document& stylesheet::apply(doc, with_params)]. *)
Definition apply (doc : TreeParser.document) (p : option param_type)
  : M TreeParser.document :=
  (let input := get_doc_data_read_only doc in
   xmldoc <- apply_stylesheet input p ;;
   q <- get ;;
   if TreeParser.is_null xmldoc then throw (TreeParser.xml_exception (error_ q))
   else
     modify (set_doc_ (set_doc_data_from_xslt xmldoc
                         {| result_doc := xmldoc; result_ss := ss_ q |} (doc_ q))) ;;
     q <- get ;;
     ret (doc_ q))%xslt.

(** [stylesheet::get_error_message]. *)
Definition get_error_message (t : stylesheet) : string := error_ (pimpl_ t).

(** *** The text the error callbacks of a run add *)

(** What one event appends to [error_]: for an error, a newline and the
    formatted message. *)
Definition appended_text (ev : xslt_event) : string :=
  match ev with
  | xev_error message ap =>
      match Utility.printf2string vformat EmptyString message ap with
      | InBounds formatted => (NEWLINE ++ formatted)%string
      | OutOfBounds _ => EmptyString
      end
  | xev_state _ => EmptyString
  end.

Fixpoint error_log (evs : list xslt_event) : string :=
  match evs with
  | [] => EmptyString
  | ev :: evs' => (appended_text ev ++ error_log evs')%string
  end.

Definition is_xev_error (ev : xslt_event) : bool :=
  match ev with xev_error _ _ => true | xev_state _ => false end.

(** The run libxslt makes for the call of [apply_stylesheet] in state [w]. *)
Definition run_of (w : world) (doc : TreeParser.xmlDocPtr) (p : option param_type)
  : xslt_run :=
  libxslt_apply (ss_ (impl w)) doc
    (match p with Some p => Some (make_vector_param [] p) | None => None end).

End Transform.

End Stylesheet.

(** ** Sample behaviours of libxslt *)

Module StylesheetExamples.

Import Stylesheet.

(** A transformation without error: a tree. *)
Definition clean_run : xslt_run :=
  {| new_ctxt := Some XSLT_STATE_OK; xslt_events := [];
     xslt_result := Some 8%nat |}.

(** A transformation in which [xsl:message] terminates the run after an
    earlier error: two error callbacks, and a tree all the same. *)
Definition terminated_run : xslt_run :=
  {| new_ctxt := Some XSLT_STATE_OK;
     xslt_events :=
       [xev_error "xsl:value-of : could not compile select expression '%s'
" [VaStr "x|"];
        xev_state XSLT_STATE_ERROR;
        xev_error "xsl:message terminated
" []];
     xslt_result := Some 9%nat |}.

(** libxslt on the input tree at address 1, and on any other. *)
Definition libxslt_apply_example (style : xsltStylesheetPtr)
  (doc : TreeParser.xmlDocPtr) (params : option (list c_string_ptr)) : xslt_run :=
  match doc with
  | Some 1%nat => clean_run
  | _ => terminated_run
  end.

(** A stylesheet that compiled, with no error recorded. *)
Definition compiled : world :=
  {| impl := set_ss_ (Some 5%nat) pimpl_ctor; ctxt := None; trace := [] |}.

End StylesheetExamples.

(** * Properties *)

(** ** The formatted-message converter *)

Module UtilityFacts.

Import Utility.

Lemma is_NUL_true (c : ascii) : is_NUL c = true -> c = NUL.
Proof. unfold is_NUL. apply Ascii.eqb_eq. Qed.

Lemma c_str_prefix (l : list ascii) : exists r, l = c_str l ++ r.
Proof.
  induction l as [|c l [r IH]]; simpl.
  - now exists [].
  - destruct (is_NUL c).
    + now exists (c :: l).
    + exists r. simpl. now rewrite <- IH.
Qed.

Lemma strlen_from_c_str (l r : list ascii) (i : Z) :
  strlen_from (l ++ NUL :: r) i = InBounds (i + Z.of_nat (length (c_str l))).
Proof.
  revert i. induction l as [|c l IH]; intros i; simpl.
  - f_equal. lia.
  - destruct (is_NUL c) eqn:E.
    + simpl. f_equal. lia.
    + rewrite IH. simpl length. f_equal. lia.
Qed.

Lemma firstn_min_length {A : Type} (m : nat) (l : list A) :
  firstn (Nat.min (length l) m) l = firstn m l.
Proof.
  destruct (Nat.le_ge_cases (length l) m) as [H|H].
  - rewrite Nat.min_l by exact H.
    rewrite firstn_all. symmetry. now apply firstn_all2.
  - now rewrite Nat.min_r.
Qed.

Lemma length_c_str_le (l : list ascii) : (length (c_str l) <= length l)%nat.
Proof.
  induction l as [|c l IH]; simpl; [lia|].
  destruct (is_NUL c); simpl; lia.
Qed.

Lemma nth_error_snoc_app {A : Type} (l r : list A) (c : A) :
  nth_error ((l ++ [c]) ++ r) (length l) = Some c.
Proof.
  rewrite <- app_assoc. rewrite nth_error_app2 by lia.
  now rewrite Nat.sub_diag.
Qed.

Lemma firstn_length_app {A : Type} (l r : list A) :
  firstn (length l) (l ++ r) = l.
Proof.
  rewrite firstn_app, Nat.sub_diag, firstn_all. simpl. apply app_nil_r.
Qed.

Lemma chomp_snoc (l : list ascii) (c : ascii) :
  chomp (l ++ [c]) = if Ascii.eqb c NL then l else l ++ [c].
Proof.
  unfold chomp. rewrite rev_app_distr. simpl.
  now rewrite rev_involutive.
Qed.

(** The part of [printf2string] after [vsnprintf], on a buffer that starts
    with a non-empty C string. *)
Lemma strip_and_assign (cs r : list ascii) :
  cs <> [] ->
  Z.of_nat (length cs) < SIZE_MODULUS ->
  let buffer := cs ++ r in
  let size := Z.of_nat (length cs) in
  (c <- buffer_read buffer (size_sub size 1) ;;
   let size := if Ascii.eqb c NL then size_sub size 1 else size in
   string_assign buffer size)%access
  = InBounds (string_of_list_ascii (chomp cs)).
Proof.
  intros Hne Hlt.
  destruct (exists_last Hne) as [l [c ->]]. cbv zeta.
  assert (Hsub : size_sub (Z.of_nat (length (l ++ [c]))) 1 = Z.of_nat (length l)).
  { unfold size_sub. rewrite length_app in *. simpl length in *.
    rewrite Z.mod_small; lia. }
  rewrite Hsub. unfold buffer_read.
  assert (Hin : (0 <=? Z.of_nat (length l)) &&
                (Z.of_nat (length l) <? Z.of_nat (length ((l ++ [c]) ++ r))) = true).
  { apply andb_true_intro. split; [apply Z.leb_le; lia|].
    apply Z.ltb_lt. rewrite !length_app. simpl. lia. }
  rewrite Hin, Nat2Z.id, nth_error_snoc_app. simpl access_bind.
  rewrite chomp_snoc. unfold string_assign.
  destruct (Ascii.eqb c NL).
  - assert (Hle : (Z.of_nat (length l) <=? Z.of_nat (length ((l ++ [c]) ++ r))) = true).
    { apply Z.leb_le. rewrite !length_app. lia. }
    rewrite Hle, Nat2Z.id, <- app_assoc, firstn_length_app. reflexivity.
  - assert (Hle : (Z.of_nat (length (l ++ [c])) <=? Z.of_nat (length ((l ++ [c]) ++ r))) = true).
    { apply Z.leb_le. rewrite !length_app. lia. }
    rewrite Hle, Nat2Z.id, firstn_length_app. reflexivity.
Qed.

Section Facts.

Variable vformat : formatter.

Lemma vsnprintf_error (buffer : list ascii) (n : nat) (message : string) (ap : va_list) :
  vformat message ap = None ->
  vsnprintf vformat buffer n message ap = (-1, buffer).
Proof. intros H. unfold vsnprintf. now rewrite H. Qed.

Lemma vsnprintf_stores (buffer : list ascii) (m : nat) (message : string) (ap : va_list)
  (out : list ascii) :
  vformat message ap = Some out ->
  Z.of_nat (length out) <= INT_MAX ->
  vsnprintf vformat buffer (S m) message ap =
    (Z.of_nat (length out),
     firstn m out ++ NUL :: skipn (S (Nat.min (length out) m)) buffer).
Proof.
  intros H Hmax. unfold vsnprintf. rewrite H.
  destruct (Z.of_nat (length out) >? INT_MAX) eqn:E.
  - apply Z.gtb_lt in E. lia.
  - now rewrite firstn_min_length.
Qed.

(** When formatting yields zero or negative length, [s] is left unchanged. *)
Lemma printf2string_unchanged (s message : string) (ap : va_list) :
  fst (vsnprintf vformat (memset_zero BUFFER_SIZE) BUFFER_SIZE message ap) <= 0 ->
  printf2string vformat s message ap = InBounds s.
Proof.
  unfold printf2string.
  destruct (vsnprintf vformat (memset_zero BUFFER_SIZE) BUFFER_SIZE message ap) as [ret b].
  simpl. intros H.
  destruct (ret >? 0) eqn:E; [apply Z.gtb_lt in E; lia | reflexivity].
Qed.

(** Otherwise [s] receives the C string held by the truncated message, with
    one trailing newline stripped, provided that C string is not empty. *)
Lemma printf2string_assigns (s message : string) (ap : va_list) (out : list ascii) :
  vformat message ap = Some out ->
  0 < Z.of_nat (length out) <= INT_MAX ->
  c_str (truncate BUFFER_SIZE out) <> [] ->
  printf2string vformat s message ap =
    InBounds (string_of_list_ascii (chomp (c_str (truncate BUFFER_SIZE out)))).
Proof.
  intros Hf [Hpos Hmax] Hne.
  unfold printf2string, BUFFER_SIZE in *.
  rewrite (vsnprintf_stores _ _ _ _ _ Hf Hmax).
  unfold truncate in *. replace (512 - 1)%nat with 511%nat in * by reflexivity.
  set (pre := firstn 511 out) in *.
  set (tl := skipn _ _).
  destruct (Z.of_nat (length out) >? 0) eqn:E; [|rewrite Z.gtb_ltb in E; apply Z.ltb_ge in E; lia].
  unfold strlen. rewrite strlen_from_c_str. simpl access_bind.
  destruct (c_str_prefix pre) as [r Hr].
  assert (Hlen : (length (c_str pre) <= 511)%nat).
  { etransitivity; [apply length_c_str_le|]. subst pre. apply firstn_le_length. }
  replace (pre ++ NUL :: tl) with (c_str pre ++ (r ++ NUL :: tl))
    by (rewrite app_assoc, <- Hr; reflexivity).
  apply strip_and_assign; [exact Hne|].
  unfold SIZE_MODULUS. lia.
Qed.

Lemma leading_NUL_false_c_str (message : string) (ap : va_list) (out : list ascii) :
  vformat message ap = Some out ->
  0 < Z.of_nat (length out) ->
  leading_NUL vformat message ap = false ->
  c_str (truncate BUFFER_SIZE out) <> [].
Proof.
  unfold leading_NUL. intros -> Hpos Hlead.
  destruct out as [|c out]; [simpl in Hpos; lia|].
  unfold truncate, BUFFER_SIZE. simpl. rewrite Hlead. discriminate.
Qed.

End Facts.

(** C7 (as amended).  For every format string and argument list whose
    formatted message does not begin with a NUL byte, [printf2string] reads
    the buffer within bounds and gives the output string the value of the
    contract over C strings: the formatted message cut at its first NUL,
    truncated to the 511 characters that a 512-byte buffer holds, with a
    single trailing newline stripped; and the output string is unchanged
    when formatting yields zero or negative length. *)
Theorem printf2string_c_string_contract (vformat : formatter) (s message : string)
  (ap : va_list) :
  leading_NUL vformat message ap = false ->
  printf2string vformat s message ap =
    InBounds (printf2string_c_spec vformat s message ap).
Proof.
  intros Hlead. unfold printf2string_c_spec.
  destruct (vformat message ap) as [out|] eqn:Hf.
  - destruct ((0 <? Z.of_nat (length out)) && (Z.of_nat (length out) <=? INT_MAX)) eqn:Hrange.
    + apply andb_prop in Hrange. destruct Hrange as [Hpos Hmax].
      apply Z.ltb_lt in Hpos. apply Z.leb_le in Hmax.
      apply printf2string_assigns; [exact Hf | lia |].
      now apply (leading_NUL_false_c_str vformat message ap).
    + apply printf2string_unchanged. unfold vsnprintf. rewrite Hf.
      destruct (Z.of_nat (length out) >? INT_MAX) eqn:Hbig; [simpl; lia|].
      rewrite Z.gtb_ltb in Hbig. apply Z.ltb_ge in Hbig.
      apply andb_false_iff in Hrange. destruct Hrange as [Hpos|Hmax].
      * apply Z.ltb_ge in Hpos. unfold BUFFER_SIZE. simpl. lia.
      * apply Z.leb_gt in Hmax. lia.
  - apply printf2string_unchanged. now rewrite vsnprintf_error.
Qed.

(** A libxml2-style message: the format ends in a newline, which is
    stripped. *)
Lemma printf2string_c_string_contract_witness :
  leading_NUL vformat_subset "Opening and ending tag mismatch: %s line %d
" [VaStr "b"; VaInt 1] = false /\
  printf2string vformat_subset "unknown XML parsing error" "Opening and ending tag mismatch: %s line %d
" [VaStr "b"; VaInt 1] = InBounds "Opening and ending tag mismatch: b line 1"%string.
Proof.
  split; [reflexivity|].
  exact (printf2string_c_string_contract vformat_subset "unknown XML parsing error"
           "Opening and ending tag mismatch: %s line %d
" [VaStr "b"; VaInt 1] eq_refl).
Defined.

(** C7 (as stated) fails on a message with a NUL inside: [vsnprintf] formats
    the three bytes [a], NUL, [b], and the output string receives [a] only,
    where the contract read literally gives the three bytes. *)
Lemma printf2string_cuts_at_NUL :
  printf2string vformat_subset EmptyString "a%cb" [VaChar NUL] = InBounds "a"%string /\
  printf2string_spec vformat_subset EmptyString "a%cb" [VaChar NUL]
    = String "a" (String NUL (String "b" EmptyString)) /\
  printf2string vformat_subset EmptyString "a%cb" [VaChar NUL] <>
    InBounds (printf2string_spec vformat_subset EmptyString "a%cb" [VaChar NUL]).
Proof.
  split; [vm_compute; reflexivity|].
  split; [vm_compute; reflexivity|].
  vm_compute. discriminate.
Qed.

(** C9 (the code at the failing input).  For the format [%c] with a NUL
    argument [vsnprintf] returns 1, the buffer holds the empty C string,
    [strlen] is 0, and [buffer[size-1]] is read at index [SIZE_MAX]: outside
    the 512-byte buffer, whatever the output string was. *)
Theorem printf2string_reads_outside_buffer (s : string) :
  vsnprintf vformat_subset (memset_zero BUFFER_SIZE) BUFFER_SIZE "%c" [VaChar NUL]
    = (1, memset_zero BUFFER_SIZE) /\
  strlen (memset_zero BUFFER_SIZE) = InBounds 0 /\
  size_sub 0 1 = SIZE_MODULUS - 1 /\
  printf2string vformat_subset s "%c" [VaChar NUL] = OutOfBounds (SIZE_MODULUS - 1).
Proof.
  split; [vm_compute; reflexivity|].
  split; [vm_compute; reflexivity|].
  split; [vm_compute; reflexivity|].
  vm_compute. reflexivity.
Qed.

End UtilityFacts.

(** ** The parse session and the constructors *)

Module TreeParserFacts.

Import TreeParser.

Section Facts.

Variable vformat : formatter.
Variable xmlKeepBlanksDefaultValue : Z.
Variable libxml_file : string -> file_run.
Variable libxml_memory : string -> Z -> memory_run.

Local Abbreviation fire := (fire vformat).
Local Abbreviation fire_all := (fire_all vformat).
Local Abbreviation new_tree_impl := (new_tree_impl xmlKeepBlanksDefaultValue).
Local Abbreviation parse_start := (parse_start xmlKeepBlanksDefaultValue).
Local Abbreviation parse_session :=
  (parse_session vformat xmlKeepBlanksDefaultValue libxml_file libxml_memory).
Local Abbreviation parse_failed := (parse_failed libxml_file libxml_memory).
Local Abbreviation library_tree := (library_tree libxml_file libxml_memory).
Local Abbreviation events_of := (events_of libxml_file libxml_memory).
Local Abbreviation tree_parser_file :=
  (tree_parser_file vformat xmlKeepBlanksDefaultValue libxml_file).
Local Abbreviation tree_parser_memory :=
  (tree_parser_memory vformat xmlKeepBlanksDefaultValue libxml_memory).
Local Abbreviation construct :=
  (construct vformat xmlKeepBlanksDefaultValue libxml_file libxml_memory).

(** *** The callbacks, one at a time *)

Lemma cb_tree_error_null (message : string) (ap : va_list) (w : world) :
  cb_tree_error vformat false message ap w = Return tt w.
Proof. reflexivity. Qed.

Lemma cb_tree_error_exec (message : string) (ap : va_list) (w : world) :
  cb_tree_error vformat true message ap w =
    match Utility.printf2string vformat (last_error_ (pimpl w)) message ap with
    | InBounds s =>
        Return tt (log call_xmlStopParser
                     (on_pimpl (set_last_error_ s) (on_pimpl (set_okay_ false) w)))
    | OutOfBounds i => Undefined i
    end.
Proof.
  unfold cb_tree_error, try_catch_all, bind, modify, get, lift_access, do_call.
  simpl. destruct (Utility.printf2string vformat (last_error_ (pimpl w)) message ap);
    reflexivity.
Qed.

Lemma cb_tree_warning_exec (p_set : bool) (message : string) (ap : va_list) (w : world) :
  cb_tree_warning p_set message ap w =
    Return tt (if p_set then on_pimpl (set_warnings_ true) w else w).
Proof. destruct p_set; reflexivity. Qed.

(** What no callback touches: the handler table and the document handle;
    and the only call a callback makes is [xmlStopParser]. *)
Lemma call_message_slot_frame (h : sax_callback) (p_set : bool) (message : string)
  (ap : va_list) (w w' : world) :
  call_message_slot vformat h p_set message ap w = Return tt w' ->
  sax_ (pimpl w') = sax_ (pimpl w) /\
  doc_ (pimpl w') = doc_ (pimpl w) /\
  (forall c, In c (trace w') -> In c (trace w) \/ c = call_xmlStopParser).
Proof.
  destruct h; simpl.
  - intros [= <-]. auto.
  - rewrite cb_tree_warning_exec. intros [= <-]. destruct p_set; simpl; auto.
  - destruct p_set.
    + rewrite cb_tree_error_exec.
      destruct (Utility.printf2string _ _ _ _); [|discriminate].
      intros [= <-]. simpl. repeat split.
      intros c Hc. apply in_app_or in Hc. destruct Hc as [Hc|[Hc|[]]]; auto.
    + rewrite cb_tree_error_null. intros [= <-]. auto.
  - intros [= <-]. auto.
Qed.

Lemma fire_frame (wired : bool) (ev : sax_event) (w w' : world) :
  fire wired ev w = Return tt w' ->
  sax_ (pimpl w') = sax_ (pimpl w) /\
  doc_ (pimpl w') = doc_ (pimpl w) /\
  (forall c, In c (trace w') -> In c (trace w) \/ c = call_xmlStopParser).
Proof.
  destruct ev; unfold TreeParser.fire, bind, get;
    try apply call_message_slot_frame.
  destruct (sax_ignorableWhitespace (sax_ (pimpl w))); intros [= <-]; auto.
Qed.

Lemma fire_all_frame (wired : bool) (evs : list sax_event) :
  forall w w', fire_all wired evs w = Return tt w' ->
  sax_ (pimpl w') = sax_ (pimpl w) /\
  doc_ (pimpl w') = doc_ (pimpl w) /\
  (forall c, In c (trace w') -> In c (trace w) \/ c = call_xmlStopParser).
Proof.
  induction evs as [|ev evs IH]; intros w w'; simpl.
  - intros [= <-]. auto.
  - unfold bind. destruct (fire wired ev w) as [[] w1| |] eqn:E; try discriminate.
    intros H. apply IH in H. apply fire_frame in E.
    destruct H as (Hs & Hd & Ht), E as (Hs1 & Hd1 & Ht1).
    repeat split; try congruence.
    intros c Hc. apply Ht in Hc. destruct Hc as [Hc|Hc]; auto.
Qed.

(** The table the constructor of [tree_impl] installs. *)
Lemma installed_table (p : tree_impl) :
  sax_ p = sax_ (tree_impl_ctor xmlKeepBlanksDefaultValue) ->
  sax_warning (sax_ p) = ptr_cb_tree_warning /\
  sax_error (sax_ p) = ptr_cb_tree_error /\
  sax_fatalError (sax_ p) = ptr_cb_tree_error.
Proof. intros ->. simpl. auto. Qed.

(** A callback that is not an error callback leaves [last_error_] and
    [okay_] alone, and returns. *)
Lemma fire_quiet (wired : bool) (ev : sax_event) (w : world) :
  sax_ (pimpl w) = sax_ (tree_impl_ctor xmlKeepBlanksDefaultValue) ->
  is_error_event ev = false ->
  exists w', fire wired ev w = Return tt w' /\
             last_error_ (pimpl w') = last_error_ (pimpl w) /\
             okay_ (pimpl w') = okay_ (pimpl w).
Proof.
  intros Hs Hev. destruct (installed_table _ Hs) as (Hw & _ & _).
  destruct ev; try discriminate; unfold TreeParser.fire, bind, get.
  - rewrite Hw. simpl. rewrite cb_tree_warning_exec.
    eexists. split; [reflexivity|]. destruct (wired || private_set); auto.
  - destruct (sax_ignorableWhitespace (sax_ (pimpl w))); eexists; split;
      try reflexivity; auto.
Qed.

Lemma fire_all_quiet (wired : bool) (evs : list sax_event) :
  forall w,
  sax_ (pimpl w) = sax_ (tree_impl_ctor xmlKeepBlanksDefaultValue) ->
  Forall (fun ev => is_error_event ev = false) evs ->
  exists w', fire_all wired evs w = Return tt w' /\
             last_error_ (pimpl w') = last_error_ (pimpl w) /\
             okay_ (pimpl w') = okay_ (pimpl w).
Proof.
  induction evs as [|ev evs IH]; intros w Hs Hall; simpl.
  - exists w. auto.
  - inversion Hall as [|? ? Hev Hall']; subst.
    destruct (fire_quiet wired ev w Hs Hev) as (w1 & E & Hl & Ho).
    destruct (fire_frame _ _ _ _ E) as (Hs1 & _ & _).
    destruct (IH w1 (eq_trans Hs1 Hs) Hall') as (w' & E' & Hl' & Ho').
    exists w'. unfold bind. rewrite E. repeat split; congruence.
Qed.

(** One callback changes [last_error_] only if it is an error callback. *)
Lemma fire_overwrites (wired : bool) (ev : sax_event) (w w' : world) :
  sax_ (pimpl w) = sax_ (tree_impl_ctor xmlKeepBlanksDefaultValue) ->
  fire wired ev w = Return tt w' ->
  ((if String.eqb (last_error_ (pimpl w)) (last_error_ (pimpl w')) then 0 else 1)
   <= if is_error_event ev then 1 else 0)%nat.
Proof.
  intros Hs E. destruct (is_error_event ev) eqn:Hev.
  - destruct (String.eqb _ _); lia.
  - destruct (fire_quiet wired ev w Hs Hev) as (w1 & E1 & Hl & _).
    rewrite E in E1. injection E1 as <-. rewrite Hl, String.eqb_refl. lia.
Qed.

Lemma overwrites_le_error_events (wired : bool) (evs : list sax_event) :
  forall w,
  sax_ (pimpl w) = sax_ (tree_impl_ctor xmlKeepBlanksDefaultValue) ->
  (overwrites (last_error_ (pimpl w)) (last_error_history vformat wired evs w)
   <= error_events evs)%nat.
Proof.
  induction evs as [|ev evs IH]; intros w Hs; simpl; [lia|].
  unfold error_events. simpl.
  destruct (fire wired ev w) as [[] w1| |] eqn:E;
    try (simpl; lia).
  pose proof (fire_overwrites wired ev w w1 Hs E) as H1.
  destruct (fire_frame _ _ _ _ E) as (Hs1 & _ & _).
  specialize (IH w1 (eq_trans Hs1 Hs)). unfold error_events in IH.
  simpl overwrites. destruct (is_error_event ev); simpl length; lia.
Qed.

(** *** The constructors from the point where the parser returns *)

Lemma parse_session_file (name : string) :
  parse_session (from_file name) =
    fire_all false (file_events (libxml_file name)) parse_start.
Proof. reflexivity. Qed.

Lemma parse_session_memory (data : string) (size : Z) :
  parse_session (from_memory data size) =
    let lib := libxml_memory data size in
    if ctxt_created lib then
      fire_all true (memory_events lib)
        (on_pimpl (set_okay_ true)
           (if ctxt_has_sax lib then log call_xmlFree_sax new_tree_impl
            else new_tree_impl))
    else Throw std_bad_alloc new_tree_impl.
Proof.
  unfold TreeParser.parse_session. cbv zeta.
  destruct (ctxt_created (libxml_memory data size)),
           (ctxt_has_sax (libxml_memory data size)); reflexivity.
Qed.

(** The file constructor, run from the session the parser leaves. *)
Lemma tree_parser_file_exec (name : string) (allow_exceptions : bool) :
  tree_parser_file name allow_exceptions =
    match parse_session (from_file name) with
    | Return _ w1 =>
        let tmpdoc := file_doc (libxml_file name) in
        if parse_failed (from_file name) (pimpl w1) then
          let w2 :=
            if String.eqb (last_error_ (pimpl w1)) DEFAULT_ERROR then
              if file_fopen (libxml_file name) then
                log call_fclose (log (call_fopen name) w1)
              else
                on_pimpl
                  (set_last_error_
                     ((("failed to open file " ++ DQUOTE) ++ name) ++ DQUOTE)%string)
                  (log (call_fopen name) w1)
            else w1 in
          let w3 := if is_null tmpdoc then w2 else log (call_xmlFreeDoc tmpdoc) w2 in
          let w4 := on_pimpl (set_okay_ false) w3 in
          if allow_exceptions then
            Throw (xml_exception (last_error_ (pimpl w4))) (log call_delete_tree_impl w4)
          else Return {| pimpl_ := pimpl w4 |} w4
        else
          let w2 := on_pimpl (set_doc_ (set_doc_data tmpdoc (doc_ (pimpl w1)))) w1 in
          Return {| pimpl_ := pimpl w2 |} w2
    | Throw e w => Throw e (log call_delete_tree_impl w)
    | Undefined i => Undefined i
    end.
Proof.
  rewrite parse_session_file.
  unfold TreeParser.tree_parser_file, auto_ptr_scope, xmlSAXParseFileWithData,
    TreeParser.parse_failed, bind, modify, get, ret.
  change (on_pimpl (set_okay_ true) new_tree_impl) with parse_start.
  destruct (fire_all false (file_events (libxml_file name)) parse_start)
    as [[] w1|e w1|i]; try reflexivity.
  cbv zeta.
  destruct (negb (is_null (file_doc (libxml_file name))) && okay_ (pimpl w1)) eqn:Hok;
    [reflexivity|].
  simpl negb. cbv iota.
  unfold when, fopen, bind, do_call, throw, ret, modify.
  destruct (String.eqb (last_error_ (pimpl w1)) DEFAULT_ERROR),
           (file_fopen (libxml_file name)),
           (is_null (file_doc (libxml_file name))),
           allow_exceptions; reflexivity.
Qed.

(** The memory constructor, run from the session the parser leaves. *)
Lemma tree_parser_memory_exec (data : string) (size : Z) (allow_exceptions : bool) :
  tree_parser_memory data size allow_exceptions =
    match parse_session (from_memory data size) with
    | Return _ w1 =>
        let myDoc := ctxt_myDoc (libxml_memory data size) in
        if parse_failed (from_memory data size) (pimpl w1) then
          let w2 :=
            on_pimpl (set_okay_ false)
              (log call_xmlFreeParserCtxt (log (call_xmlFreeDoc myDoc) w1)) in
          if allow_exceptions then
            Throw (xml_exception (last_error_ (pimpl w2))) (log call_delete_tree_impl w2)
          else Return {| pimpl_ := pimpl w2 |} w2
        else
          let w2 :=
            log call_xmlFreeParserCtxt
              (on_pimpl (set_okay_ true)
                 (on_pimpl (set_doc_ (set_doc_data myDoc (doc_ (pimpl w1)))) w1)) in
          Return {| pimpl_ := pimpl w2 |} w2
    | Throw e w => Throw e (log call_delete_tree_impl w)
    | Undefined i => Undefined i
    end.
Proof.
  rewrite parse_session_memory. cbv zeta.
  unfold TreeParser.tree_parser_memory, auto_ptr_scope, xmlParseDocument,
    TreeParser.parse_failed, bind, modify, get, ret, when, throw, do_call.
  cbv zeta.
  destruct (ctxt_created (libxml_memory data size)); [|reflexivity].
  destruct (ctxt_has_sax (libxml_memory data size)); cbn [negb]; unfold ret;
    cbv beta iota;
    (match goal with
     | |- context [TreeParser.fire_all vformat true ?evs ?w] =>
         destruct (TreeParser.fire_all vformat true evs w) as [[] w1|e w1|i]
     end; try reflexivity;
     match goal with
     | |- context [(?a || ?b || ?c)%bool] => destruct (a || b || c)%bool
     end; [destruct allow_exceptions|]; reflexivity).
Qed.

(** The session at the point where the parser returns: the table and the
    document handle are those of a fresh session, and no tree was freed. *)
Lemma parse_session_frame (i : input) (w1 : world) :
  parse_session i = Return tt w1 ->
  sax_ (pimpl w1) = sax_ (tree_impl_ctor xmlKeepBlanksDefaultValue) /\
  doc_ (pimpl w1) = document_empty /\
  (forall d, ~ In (call_xmlFreeDoc d) (trace w1)).
Proof.
  destruct i as [name|data size].
  - rewrite parse_session_file. intros H.
    apply fire_all_frame in H. destruct H as (Hs & Hd & Ht).
    repeat split; try assumption.
    intros d Hin. apply Ht in Hin. simpl in Hin.
    destruct Hin as [[]|Hin]. discriminate Hin.
  - rewrite parse_session_memory. cbv zeta.
    destruct (ctxt_created (libxml_memory data size)); [|discriminate].
    intros H. apply fire_all_frame in H. destruct H as (Hs & Hd & Ht).
    destruct (ctxt_has_sax (libxml_memory data size));
      (repeat split; try assumption;
       intros d Hin; apply Ht in Hin; simpl in Hin;
       destruct Hin as [Hin|Hin]; [|discriminate Hin]).
    + destruct Hin as [Hin|[]]. discriminate Hin.
    + destruct Hin.
Qed.

(** A construction whose parse yielded a usable tree. *)
Lemma construct_success (i : input) (allow_exceptions : bool) (w1 : world) :
  parse_session i = Return tt w1 ->
  parse_failed i (pimpl w1) = false ->
  exists w2,
    construct i allow_exceptions = Return {| pimpl_ := pimpl w2 |} w2 /\
    okay_ (pimpl w2) = true /\
    doc_ (pimpl w2) = {| doc_data := library_tree i |} /\
    last_error_ (pimpl w2) = last_error_ (pimpl w1) /\
    (forall d, ~ In (call_xmlFreeDoc d) (trace w2)) /\
    (is_file i = true -> library_tree i <> None).
Proof.
  intros Hs Hf. destruct (parse_session_frame i w1 Hs) as (_ & _ & Hfree).
  destruct i as [name|data size]; simpl construct.
  - rewrite tree_parser_file_exec, Hs. cbv zeta. rewrite Hf.
    eexists. split; [reflexivity|]. simpl in Hf |- *.
    apply negb_false_iff, andb_prop in Hf. destruct Hf as [Hnn Hok].
    repeat split; auto.
    intros _ Hnull. rewrite Hnull in Hnn. discriminate.
  - rewrite tree_parser_memory_exec, Hs. cbv zeta. rewrite Hf.
    eexists. split; [reflexivity|]. simpl. repeat split; auto; try discriminate.
    intros d Hin. apply in_app_or in Hin. destruct Hin as [Hin|[Hin|[]]].
    + now apply (Hfree d).
    + discriminate Hin.
Qed.

(** A construction whose parse failed. *)
Lemma construct_failure (i : input) (allow_exceptions : bool) (w1 : world) :
  parse_session i = Return tt w1 ->
  parse_failed i (pimpl w1) = true ->
  exists w4,
    construct i allow_exceptions =
      (if allow_exceptions then
         Throw (xml_exception (last_error_ (pimpl w4))) (log call_delete_tree_impl w4)
       else Return {| pimpl_ := pimpl w4 |} w4) /\
    okay_ (pimpl w4) = false /\
    doc_ (pimpl w4) = document_empty /\
    (forall d, library_tree i = Some d -> In (call_xmlFreeDoc (Some d)) (trace w4)) /\
    (is_file i = false \/ last_error_ (pimpl w1) <> DEFAULT_ERROR ->
     last_error_ (pimpl w4) = last_error_ (pimpl w1)).
Proof.
  intros Hs Hf. destruct (parse_session_frame i w1 Hs) as (_ & Hdoc & _).
  destruct i as [name|data size]; simpl construct.
  - rewrite tree_parser_file_exec, Hs. cbv zeta. rewrite Hf.
    eexists. split; [reflexivity|].
    simpl library_tree. simpl is_file.
    destruct (String.eqb (last_error_ (pimpl w1)) DEFAULT_ERROR) eqn:Hsent.
    + apply String.eqb_eq in Hsent.
      destruct (file_fopen (libxml_file name)),
               (file_doc (libxml_file name)) as [d0|]; simpl;
        repeat split; auto; try discriminate;
        try (intros [Hc|Hc]; [discriminate Hc | now elim Hc]);
        intros d [= <-]; apply in_or_app; right; now left.
    + destruct (file_doc (libxml_file name)) as [d0|]; simpl;
        repeat split; auto; try discriminate.
      intros d [= <-]. apply in_or_app. right. now left.
  - rewrite tree_parser_memory_exec, Hs. cbv zeta. rewrite Hf.
    eexists. split; [reflexivity|]. simpl. repeat split; auto.
    intros d ->. apply in_or_app. left. apply in_or_app. right. now left.
Qed.

(** A construction whose parse never returned. *)
Lemma construct_no_session (i : input) (allow_exceptions : bool) :
  (forall e w, parse_session i = Throw e w ->
     construct i allow_exceptions = Throw e (log call_delete_tree_impl w)) /\
  (forall k, parse_session i = Undefined k ->
     construct i allow_exceptions = Undefined k).
Proof.
  destruct i as [name|data size]; simpl construct;
    [rewrite tree_parser_file_exec | rewrite tree_parser_memory_exec];
    split; intros; match goal with H : _ = _ |- _ => rewrite H end; reflexivity.
Qed.

(** With no error callback the parser returns with the session as it
    started, unless no context could be created. *)
Lemma parse_session_quiet (i : input) :
  Forall (fun ev => is_error_event ev = false) (events_of i) ->
  (exists w1, parse_session i = Return tt w1 /\
              last_error_ (pimpl w1) = DEFAULT_ERROR /\
              okay_ (pimpl w1) = true) \/
  (exists w, parse_session i = Throw std_bad_alloc w).
Proof.
  intros Hq. destruct i as [name|data size]; simpl events_of in Hq.
  - left. rewrite parse_session_file.
    destruct (fire_all_quiet false _ parse_start eq_refl Hq) as (w1 & E & Hl & Ho).
    exists w1. auto.
  - rewrite parse_session_memory. cbv zeta.
    destruct (ctxt_created (libxml_memory data size)); [left|right; eauto].
    destruct (ctxt_has_sax (libxml_memory data size));
      match goal with
      | |- context [TreeParser.fire_all vformat true ?evs ?w] =>
          destruct (fire_all_quiet true evs w eq_refl Hq) as (w1 & E & Hl & Ho)
      end; exists w1; auto.
Qed.

(** *** The invariant of the data model *)


(** *** Failure handling *)

(** C2.  From a file or from memory: when the library hands back a tree
    [d] but a callback has set the success flag to false, the construction
    fails (it throws the library's exception if exceptions are allowed, and
    otherwise returns an object whose [failed()] is true); it has called
    [xmlFreeDoc] on [d]; the document handle of the session holds no tree;
    and the error text recorded during the parse (for a file: a text that
    differs from the sentinel, which is how the code recognises a recorded
    text) is the text reported. *)
Theorem partial_tree_discarded (i : input) (allow_exceptions : bool) (d : xmlDoc)
  (w1 : world) :
  parse_session i = Return tt w1 ->
  library_tree i = Some d ->
  okay_ (pimpl w1) = false ->
  let r := construct i allow_exceptions in
  In (call_xmlFreeDoc (Some d)) (calls_made r) /\
  (exists p, session_of r = Some p /\ doc_data (doc_ p) = None /\ okay_ p = false) /\
  (if allow_exceptions then exists what w, r = Throw (xml_exception what) w
   else exists t w, r = Return t w /\ failed t = true /\
                    doc_data (get_document t) = None) /\
  (is_file i = false \/ last_error_ (pimpl w1) <> DEFAULT_ERROR ->
   reported_error r = Some (last_error_ (pimpl w1))).
Proof.
  intros Hs Htree Hok r.
  assert (Hf : parse_failed i (pimpl w1) = true).
  { destruct i; simpl; rewrite Hok; simpl.
    - now rewrite andb_false_r.
    - now rewrite orb_true_r. }
  destruct (construct_failure i allow_exceptions w1 Hs Hf)
    as (w4 & Hr & Hok4 & Hdoc & Hfree & Hkept).
  subst r. rewrite Hr.
  destruct allow_exceptions; simpl.
  - repeat split.
    + apply in_or_app. left. now apply Hfree.
    + exists (pimpl w4). rewrite Hdoc. auto.
    + eauto.
    + intros H. now rewrite (Hkept H).
  - repeat split.
    + now apply Hfree.
    + exists (pimpl w4). rewrite Hdoc. auto.
    + exists {| pimpl_ := pimpl w4 |}, w4. unfold failed, get_document. simpl.
      rewrite Hok4, Hdoc. auto.
    + intros H. unfold get_error_message. simpl. now rewrite (Hkept H).
Qed.

(** C3.  A file-based parse that fails with [last_error_] still equal to
    the sentinel makes the constructor call [fopen] on the path.  If the
    file cannot be opened, the text reported is [failed to open file],
    followed by the path between double quotes.  If it can be opened, the
    stream is closed and the text reported is the sentinel. *)
Theorem file_failure_diagnostic (name : string) (allow_exceptions : bool) (w1 : world) :
  parse_session (from_file name) = Return tt w1 ->
  parse_failed (from_file name) (pimpl w1) = true ->
  last_error_ (pimpl w1) = DEFAULT_ERROR ->
  let r := tree_parser_file name allow_exceptions in
  In (call_fopen name) (calls_made r) /\
  (file_fopen (libxml_file name) = false ->
   reported_error r =
     Some ("failed to open file " ++ DQUOTE ++ name ++ DQUOTE)%string /\
   ~ In call_fclose (calls_made r)) /\
  (file_fopen (libxml_file name) = true ->
   reported_error r = Some DEFAULT_ERROR /\ In call_fclose (calls_made r)).
Proof.
  intros Hs Hf Hsent r. subst r.
  assert (Hquiet : forall c, In c (trace w1) -> c = call_xmlStopParser).
  { pose proof Hs as Hs'. rewrite parse_session_file in Hs'.
    apply fire_all_frame in Hs'. destruct Hs' as (_ & _ & Ht).
    intros c Hc. apply Ht in Hc. destruct Hc as [[]|Hc]. exact Hc. }
  rewrite tree_parser_file_exec, Hs. cbv zeta. rewrite Hf, Hsent.
  rewrite String.eqb_refl.
  destruct (file_fopen (libxml_file name)),
           (file_doc (libxml_file name)) as [d0|],
           allow_exceptions; simpl; rewrite ?Hsent;
    (split; [rewrite ?in_app_iff; simpl; tauto|]);
    (split; intros Hopen; try discriminate Hopen);
    (split; [unfold get_error_message; simpl; rewrite ?Hsent; reflexivity|]);
    rewrite ?in_app_iff; simpl; try tauto;
    intros Hin; decompose [or] Hin;
    try discriminate; try contradiction;
    match goal with
    | H : In call_fclose (trace w1) |- _ => apply Hquiet in H; discriminate H
    end.
Qed.

(** C5.  From a file or from memory: when the parse fails (no tree, or
    the success flag set to false by a callback; for memory, a document that
    is not well-formed, a nonzero return value, or the flag), a construction
    with [allow_exceptions = false] throws nothing: it returns an object,
    and [failed()] on that object is true. *)
Theorem no_exception_when_disallowed (i : input) (w1 : world) :
  parse_session i = Return tt w1 ->
  parse_failed i (pimpl w1) = true ->
  exists t w, construct i false = Return t w /\ failed t = true.
Proof.
  intros Hs Hf.
  destruct (construct_failure i false w1 Hs Hf) as (w4 & Hr & Hok & _).
  exists {| pimpl_ := pimpl w4 |}, w4. split; [exact Hr|].
  unfold failed. simpl. now rewrite Hok.
Qed.

(** C6.  In the memory-based constructor, when [xmlCreateMemoryParserCtxt]
    returns the null pointer, [std::bad_alloc] is thrown, whatever
    [allow_exceptions] is; the session is deleted and no callback has run. *)
Theorem memory_context_failure_is_bad_alloc (data : string) (size : Z)
  (allow_exceptions : bool) :
  ctxt_created (libxml_memory data size) = false ->
  tree_parser_memory data size allow_exceptions =
    Throw std_bad_alloc (log call_delete_tree_impl new_tree_impl).
Proof.
  intros Hc.
  unfold TreeParser.tree_parser_memory, auto_ptr_scope, bind, when, throw.
  cbv zeta. now rewrite Hc.
Qed.

(** *** The callbacks *)

(** C4 (as amended).  During a parse, [last_error_] changes at most once
    per fatal-error or error callback: no other callback changes it.  The
    error callback itself has no guard for a session that has already
    failed: with a session pointer it formats its message into
    [last_error_] every time it runs, and asks the library to stop. *)
Theorem last_error_overwritten_per_error_callback (wired : bool)
  (evs : list sax_event) (message : string) (ap : va_list) (w : world) :
  (overwrites DEFAULT_ERROR (last_error_history vformat wired evs parse_start)
   <= error_events evs)%nat /\
  cb_tree_error vformat true message ap w =
    match Utility.printf2string vformat (last_error_ (pimpl w)) message ap with
    | InBounds s =>
        Return tt (log call_xmlStopParser
                     (on_pimpl (set_last_error_ s) (on_pimpl (set_okay_ false) w)))
    | OutOfBounds k => Undefined k
    end.
Proof.
  split.
  - exact (overwrites_le_error_events wired evs parse_start eq_refl).
  - apply cb_tree_error_exec.
Qed.

(** C8.  The warning callback with a null session pointer changes nothing.
    With a session pointer it sets [warnings_] to true and changes nothing
    else: [last_error_], [okay_], the document handle, the handler table
    and the calls made are as before, whatever the message is. *)
Theorem cb_tree_warning_sets_flag_only (message : string) (ap : va_list) (w : world) :
  let w' := on_pimpl (set_warnings_ true) w in
  cb_tree_warning false message ap w = Return tt w /\
  cb_tree_warning true message ap w = Return tt w' /\
  warnings_ (pimpl w') = true /\
  last_error_ (pimpl w') = last_error_ (pimpl w) /\
  okay_ (pimpl w') = okay_ (pimpl w) /\
  doc_ (pimpl w') = doc_ (pimpl w) /\
  sax_ (pimpl w') = sax_ (pimpl w) /\
  trace w' = trace w.
Proof.
  cbv zeta. rewrite !cb_tree_warning_exec. repeat split.
Qed.

(** *** The query surface *)

(** C10.  After a construction, from a file or from memory, that returns
    an object whose [failed()] is false, with no error or fatal-error
    callback fired by the library, [get_error_message()] is the text
    [unknown XML parsing error].  The accessor is a function of the object
    alone, so every query gives that text. *)
Theorem error_message_is_sentinel_after_clean_parse (i : input)
  (allow_exceptions : bool) (t : tree_parser) (w : world) :
  Forall (fun ev => is_error_event ev = false) (events_of i) ->
  construct i allow_exceptions = Return t w ->
  failed t = false ->
  get_error_message t = "unknown XML parsing error"%string.
Proof.
  intros Hq Hc Hnf.
  destruct (parse_session_quiet i Hq) as [(w1 & Hs & Hl & Ho)|(w0 & Hs)].
  - destruct (parse_failed i (pimpl w1)) eqn:Hf.
    + destruct (construct_failure i allow_exceptions w1 Hs Hf)
        as (w4 & Hr & Hok & _).
      rewrite Hr in Hc. destruct allow_exceptions; [discriminate Hc|].
      injection Hc as <- <-. unfold failed in Hnf. simpl in Hnf.
      rewrite Hok in Hnf. discriminate Hnf.
    + destruct (construct_success i allow_exceptions w1 Hs Hf)
        as (w2 & Hr & _ & _ & Hle & _).
      rewrite Hr in Hc. injection Hc as <- <-.
      unfold get_error_message. simpl. now rewrite Hle, Hl.
  - destruct (construct_no_session i allow_exceptions) as [Ht _].
    rewrite (Ht _ _ Hs) in Hc. discriminate Hc.
Qed.

End Facts.

(** *** The theorems on the sample behaviours *)

Import Examples.

Local Abbreviation construct_example :=
  (construct vformat_subset 1 libxml_file_example libxml_memory_example).
Local Abbreviation parse_session_example :=
  (parse_session vformat_subset 1 libxml_file_example libxml_memory_example).



(** A file with content after its root element: libxml2 hands back a tree,
    the error callback has run, and the tree is freed. *)
Lemma partial_tree_discarded_witness :
  exists w1,
    parse_session_example (from_file "extra.xml") = Return tt w1 /\
    okay_ (pimpl w1) = false /\
    In (call_xmlFreeDoc (Some 3%nat))
       (calls_made (construct_example (from_file "extra.xml") false)) /\
    reported_error (construct_example (from_file "extra.xml") false)
      = Some "Extra content at the end of the document"%string.
Proof.
  eexists. split; [vm_compute; reflexivity|]. split; [reflexivity|].
  pose proof (partial_tree_discarded vformat_subset 1 libxml_file_example
                libxml_memory_example (from_file "extra.xml") false 3%nat _
                eq_refl eq_refl eq_refl) as H.
  cbv zeta in H. destruct H as (Hfree & _ & _ & Hkept).
  split; [exact Hfree|].
  apply Hkept. right. vm_compute. discriminate.
Defined.

(** The path [missing.xml]: no callback, no tree, and [fopen] fails. *)
Lemma file_failure_diagnostic_witness :
  file_fopen (libxml_file_example "missing.xml") = false /\
  reported_error (tree_parser_file vformat_subset 1 libxml_file_example "missing.xml" false)
    = Some ("failed to open file " ++ DQUOTE ++ "missing.xml" ++ DQUOTE)%string.
Proof.
  split; [reflexivity|].
  exact (proj1 (proj1 (proj2 (file_failure_diagnostic vformat_subset 1
           libxml_file_example libxml_memory_example "missing.xml" false _
           eq_refl eq_refl eq_refl)) eq_refl)).
Defined.

(** The buffer [<a><b></a>], a mismatched tag, with exceptions disallowed. *)
Lemma no_exception_when_disallowed_witness :
  exists t w,
    construct_example (from_memory "<a><b></a>" 10) false = Return t w /\
    failed t = true.
Proof.
  exact (no_exception_when_disallowed vformat_subset 1 libxml_file_example
           libxml_memory_example (from_memory "<a><b></a>" 10) _ eq_refl eq_refl).
Defined.

(** An empty buffer, for which libxml2 creates no context. *)
Lemma memory_context_failure_is_bad_alloc_witness :
  ctxt_created (libxml_memory_example EmptyString 0) = false /\
  tree_parser_memory vformat_subset 1 libxml_memory_example EmptyString 0 false =
    Throw std_bad_alloc (log call_delete_tree_impl (new_tree_impl 1)).
Proof.
  split; [reflexivity|].
  exact (memory_context_failure_is_bad_alloc vformat_subset 1 libxml_memory_example
           EmptyString 0 false eq_refl).
Defined.

(** The well-formed buffer again: the message is the sentinel. *)
Lemma error_message_is_sentinel_after_clean_parse_witness :
  exists t w,
    construct_example (from_memory "<a><b/></a>" 11) true = Return t w /\
    failed t = false /\
    get_error_message t = "unknown XML parsing error"%string.
Proof.
  eexists. eexists. split; [vm_compute; reflexivity|]. split; [reflexivity|].
  exact (error_message_is_sentinel_after_clean_parse vformat_subset 1
           libxml_file_example libxml_memory_example
           (from_memory "<a><b/></a>" 11) true _ _
           (Forall_nil _) eq_refl eq_refl).
Defined.

(** C4 (as stated) fails when a second error callback arrives: the first
    callback writes [first], the second writes [second] over it, so
    [last_error_] is overwritten twice in one parse. *)
Lemma last_error_overwritten_twice :
  last_error_history vformat_subset true two_errors (parse_start 1)
    = ["first"%string; "second"%string] /\
  ~ (overwrites DEFAULT_ERROR
       (last_error_history vformat_subset true two_errors (parse_start 1)) <= 1)%nat.
Proof.
  split; [vm_compute; reflexivity|].
  intros H. vm_compute in H. lia.
Qed.

End TreeParserFacts.

(** ** More on the formatted-message converter *)

Module UtilityMore.

Import Utility UtilityFacts.

Lemma c_str_no_NUL (l : list ascii) : ~ In NUL (c_str l).
Proof.
  induction l as [|c l IH]; simpl; [tauto|].
  destruct (is_NUL c) eqn:E; simpl; [tauto|].
  intros [H|H]; [|tauto]. subst c. discriminate E.
Qed.

Lemma chomp_cases (l : list ascii) : chomp l = l \/ chomp l = removelast l.
Proof.
  induction l as [|x l' _] using rev_ind; [now left|].
  rewrite chomp_snoc. destruct (Ascii.eqb x NL); [right|now left].
  now rewrite removelast_last.
Qed.

Lemma In_removelast {A : Type} (x : A) (l : list A) : In x (removelast l) -> In x l.
Proof.
  induction l as [|a l IH]; simpl; [tauto|].
  destruct l as [|b l]; simpl in *; [tauto|]. intros [H|H]; auto.
Qed.

Lemma length_removelast_le {A : Type} (l : list A) :
  (length (removelast l) <= length l)%nat.
Proof.
  induction l as [|a l IH]; simpl; [lia|].
  destruct l as [|b l]; simpl in *; lia.
Qed.

Lemma chomp_In (x : ascii) (l : list ascii) : In x (chomp l) -> In x l.
Proof.
  destruct (chomp_cases l) as [-> | ->]; [tauto | apply In_removelast].
Qed.

Lemma chomp_length (l : list ascii) : (length (chomp l) <= length l)%nat.
Proof.
  destruct (chomp_cases l) as [-> | ->]; [lia | apply length_removelast_le].
Qed.

Section Facts.

Variable vformat : formatter.

(** The buffer keeps its 512 bytes through [vsnprintf]. *)
Lemma vsnprintf_buffer_length (message : string) (ap : va_list) :
  length (snd (vsnprintf vformat (memset_zero BUFFER_SIZE) BUFFER_SIZE message ap))
  = BUFFER_SIZE.
Proof.
  unfold memset_zero, BUFFER_SIZE.
  assert (Hz : length (repeat NUL 512) = 512%nat) by apply repeat_length.
  revert Hz. generalize (repeat NUL 512). intros zs Hz.
  unfold vsnprintf.
  destruct (vformat message ap) as [out|]; cbn [snd]; [|exact Hz].
  destruct (Z.of_nat (length out) >? INT_MAX); cbn [snd]; [exact Hz|].
  rewrite length_app. cbn [length]. rewrite length_skipn, Hz, length_firstn.
  lia.
Qed.

(** A message that begins with a NUL and has positive length takes
    [printf2string] outside the buffer. *)
Lemma printf2string_leading_NUL (s message : string) (ap : va_list) (out : list ascii) :
  vformat message ap = Some out ->
  Z.of_nat (length out) <= INT_MAX ->
  leading_NUL vformat message ap = true ->
  printf2string vformat s message ap = OutOfBounds (SIZE_MODULUS - 1).
Proof.
  intros Hf Hmax Hlead.
  pose proof (vsnprintf_buffer_length message ap) as Hlen.
  unfold printf2string, BUFFER_SIZE in *.
  rewrite (vsnprintf_stores vformat _ _ _ _ _ Hf Hmax) in *. cbn [snd] in Hlen.
  unfold leading_NUL in Hlead. rewrite Hf in Hlead.
  destruct out as [|c out]; [discriminate Hlead|].
  destruct (Z.of_nat (length (c :: out)) >? 0) eqn:E;
    [|rewrite Z.gtb_ltb in E; apply Z.ltb_ge in E; simpl length in E; lia].
  unfold strlen. rewrite strlen_from_c_str.
  replace (c_str (firstn 511 (c :: out))) with (@nil ascii)
    by (simpl; now rewrite Hlead).
  set (buffer := firstn 511 (c :: out) ++ _) in *.
  cbn [access_bind]. unfold buffer_read.
  rewrite Hlen.
  replace (size_sub (0 + Z.of_nat (length (@nil ascii))) 1) with (SIZE_MODULUS - 1)
    by reflexivity.
  reflexivity.
Qed.

End Facts.

(** X1.  [printf2string] reads outside its buffer exactly when the formatted
    message fits an [int] and begins with a NUL byte; the index read is then
    [SIZE_MAX]. *)
Theorem printf2string_out_of_bounds_iff (vformat : formatter) (s message : string)
  (ap : va_list) (k : Z) :
  printf2string vformat s message ap = OutOfBounds k <->
  k = SIZE_MODULUS - 1 /\
  leading_NUL vformat message ap = true /\
  exists out, vformat message ap = Some out /\ Z.of_nat (length out) <= INT_MAX.
Proof.
  split.
  - intros H. destruct (leading_NUL vformat message ap) eqn:Hlead.
    + unfold leading_NUL in Hlead.
      destruct (vformat message ap) as [out|] eqn:Hf; [|discriminate Hlead].
      destruct (Z.of_nat (length out) >? INT_MAX) eqn:Hbig.
      * rewrite printf2string_unchanged in H; [discriminate H|].
        unfold vsnprintf. now rewrite Hf, Hbig.
      * rewrite Z.gtb_ltb in Hbig. apply Z.ltb_ge in Hbig.
        rewrite (printf2string_leading_NUL vformat s message ap out Hf Hbig) in H.
        -- injection H as <-. repeat split. now exists out.
        -- unfold leading_NUL. now rewrite Hf.
    + exfalso.
      destruct (vformat message ap) as [out|] eqn:Hf.
      * destruct (Z_lt_le_dec 0 (Z.of_nat (length out))) as [Hpos|Hzero].
        -- destruct (Z_le_gt_dec (Z.of_nat (length out)) INT_MAX) as [Hmax|Hbig].
           ++ rewrite (printf2string_assigns vformat s message ap out Hf) in H;
                [discriminate H | lia |].
              now apply (leading_NUL_false_c_str vformat message ap).
           ++ rewrite printf2string_unchanged in H; [discriminate H|].
              unfold vsnprintf. rewrite Hf.
              destruct (Z.of_nat (length out) >? INT_MAX) eqn:E; [simpl; lia|].
              rewrite Z.gtb_ltb in E. apply Z.ltb_ge in E. lia.
        -- rewrite printf2string_unchanged in H; [discriminate H|].
           unfold vsnprintf. rewrite Hf.
           destruct (Z.of_nat (length out) >? INT_MAX); simpl; lia.
      * rewrite printf2string_unchanged in H; [discriminate H|].
        now rewrite vsnprintf_error.
  - intros (-> & Hlead & out & Hf & Hmax).
    now apply (printf2string_leading_NUL vformat s message ap out).
Qed.

(** X2.  When formatting yields positive length and [printf2string] stays
    inside its buffer, the string it writes has at most 511 characters,
    holds no NUL byte, and does not depend on what the output string held
    before. *)
Theorem printf2string_result_bounded (vformat : formatter) (s s' message : string)
  (ap : va_list) :
  printf2string vformat s message ap = InBounds s' ->
  0 < fst (vsnprintf vformat (memset_zero BUFFER_SIZE) BUFFER_SIZE message ap) ->
  (length (list_ascii_of_string s') <= 511)%nat /\
  ~ In NUL (list_ascii_of_string s') /\
  forall s0, printf2string vformat s0 message ap = InBounds s'.
Proof.
  intros H Hret.
  destruct (vformat message ap) as [out|] eqn:Hf;
    [|rewrite vsnprintf_error in Hret by exact Hf; simpl in Hret; lia].
  unfold vsnprintf in Hret. rewrite Hf in Hret.
  destruct (Z.of_nat (length out) >? INT_MAX) eqn:Hbig; [simpl in Hret; lia|].
  rewrite Z.gtb_ltb in Hbig. apply Z.ltb_ge in Hbig.
  unfold BUFFER_SIZE in Hret. simpl fst in Hret.
  destruct (leading_NUL vformat message ap) eqn:Hlead.
  - rewrite (printf2string_leading_NUL vformat s message ap out Hf Hbig Hlead) in H.
    discriminate H.
  - assert (Hne : c_str (truncate BUFFER_SIZE out) <> [])
      by now apply (leading_NUL_false_c_str vformat message ap).
    rewrite (printf2string_assigns vformat s message ap out Hf (conj Hret Hbig) Hne) in H.
    injection H as <-. rewrite list_ascii_of_string_of_list_ascii.
    split; [|split].
    + etransitivity; [apply chomp_length|].
      etransitivity; [apply length_c_str_le|].
      unfold truncate, BUFFER_SIZE. apply firstn_le_length.
    + intros Hin. apply chomp_In in Hin. now apply c_str_no_NUL in Hin.
    + intros s0. now apply printf2string_assigns.
Qed.

Lemma printf2string_result_bounded_witness :
  (length (list_ascii_of_string "Extra content at the end of the document") <= 511)%nat /\
  ~ In NUL (list_ascii_of_string "Extra content at the end of the document") /\
  forall s0,
    printf2string vformat_subset s0 "Extra content at the end of the document
" [] = InBounds "Extra content at the end of the document"%string.
Proof.
  apply (printf2string_result_bounded vformat_subset EmptyString
           "Extra content at the end of the document"
           "Extra content at the end of the document
" []).
  - vm_compute. reflexivity.
  - vm_compute. reflexivity.
Defined.

End UtilityMore.

(** ** More on the parse session and the constructors *)

Module TreeParserMore.

Import TreeParser TreeParserFacts Resources.

Lemma count_app (f : call -> bool) (a b : list call) :
  count f (a ++ b) = (count f a + count f b)%nat.
Proof. unfold count. now rewrite filter_app, length_app. Qed.

Lemma count_log (f : call -> bool) (c : call) (w : world) :
  count f (trace (log c w)) = (count f (trace w) + if f c then 1 else 0)%nat.
Proof. simpl. rewrite count_app. unfold count. simpl. now destruct (f c). Qed.

Lemma count_on_pimpl (f : call -> bool) (g : tree_impl -> tree_impl) (w : world) :
  count f (trace (on_pimpl g w)) = count f (trace w).
Proof. reflexivity. Qed.

Lemma count_zero_not_In (f : call -> bool) (cs : list call) (c : call) :
  count f cs = 0%nat -> f c = true -> ~ In c cs.
Proof.
  unfold count. intros Hz Hf Hin.
  assert (Hin' : In c (filter f cs)) by (apply filter_In; auto).
  destruct (filter f cs); [contradiction | discriminate Hz].
Qed.

Section Facts.

Variable vformat : formatter.
Variable xmlKeepBlanksDefaultValue : Z.
Variable libxml_file : string -> file_run.
Variable libxml_memory : string -> Z -> memory_run.

Local Abbreviation fire := (fire vformat).
Local Abbreviation fire_all := (fire_all vformat).
Local Abbreviation new_tree_impl := (new_tree_impl xmlKeepBlanksDefaultValue).
Local Abbreviation parse_start := (parse_start xmlKeepBlanksDefaultValue).
Local Abbreviation parse_session :=
  (parse_session vformat xmlKeepBlanksDefaultValue libxml_file libxml_memory).
Local Abbreviation parse_failed := (parse_failed libxml_file libxml_memory).
Local Abbreviation library_tree := (library_tree libxml_file libxml_memory).
Local Abbreviation events_of := (events_of libxml_file libxml_memory).
Local Abbreviation tree_parser_file :=
  (tree_parser_file vformat xmlKeepBlanksDefaultValue libxml_file).
Local Abbreviation tree_parser_memory :=
  (tree_parser_memory vformat xmlKeepBlanksDefaultValue libxml_memory).
Local Abbreviation construct :=
  (construct vformat xmlKeepBlanksDefaultValue libxml_file libxml_memory).
Local Abbreviation failure_condition := (failure_condition libxml_file libxml_memory).
Local Abbreviation context_created := (context_created libxml_memory).
Local Abbreviation installed := (sax_ (tree_impl_ctor xmlKeepBlanksDefaultValue)).
Local Abbreviation file_exec :=
  (tree_parser_file_exec vformat xmlKeepBlanksDefaultValue libxml_file libxml_memory).
Local Abbreviation memory_exec :=
  (tree_parser_memory_exec vformat xmlKeepBlanksDefaultValue libxml_file libxml_memory).
Local Abbreviation session_file :=
  (parse_session_file vformat xmlKeepBlanksDefaultValue libxml_file libxml_memory).
Local Abbreviation session_memory :=
  (parse_session_memory vformat xmlKeepBlanksDefaultValue libxml_file libxml_memory).

(** *** Callbacks that do not find the session *)

Lemma call_message_slot_null (h : sax_callback) (message : string) (ap : va_list)
  (w : world) :
  call_message_slot vformat h false message ap w = Return tt w.
Proof. destruct h; reflexivity. Qed.

Lemma fire_unreached (wired : bool) (ev : sax_event) (w : world) :
  reaches_session wired ev = false ->
  fire wired ev w = Return tt w.
Proof.
  destruct ev; simpl; intros H; unfold TreeParser.fire, bind, get;
    try (rewrite H; apply call_message_slot_null).
  destruct (sax_ignorableWhitespace (sax_ (pimpl w))); reflexivity.
Qed.

(** *** The flags after the callbacks *)

Lemma fire_flags (wired : bool) (ev : sax_event) (w w' : world) :
  sax_ (pimpl w) = installed ->
  fire wired ev w = Return tt w' ->
  okay_ (pimpl w') = okay_ (pimpl w) && negb (is_error_event ev && reaches_session wired ev) /\
  warnings_ (pimpl w') =
    warnings_ (pimpl w) || (is_warning_event ev && reaches_session wired ev).
Proof.
  intros Hs E. destruct (installed_table _ _ Hs) as (Hw & He & Hf).
  destruct (reaches_session wired ev) eqn:Hr.
  - destruct ev; simpl in Hr; try discriminate Hr;
      unfold TreeParser.fire, bind, get in E; rewrite Hr in E.
    + rewrite Hw in E. simpl in E. rewrite cb_tree_warning_exec in E.
      injection E as <-. simpl. now rewrite andb_true_r, orb_true_r.
    + rewrite He in E. simpl in E. rewrite cb_tree_error_exec in E.
      destruct (Utility.printf2string _ _ _ _); [|discriminate E].
      injection E as <-. simpl. now rewrite andb_false_r, orb_false_r.
    + rewrite Hf in E. simpl in E. rewrite cb_tree_error_exec in E.
      destruct (Utility.printf2string _ _ _ _); [|discriminate E].
      injection E as <-. simpl. now rewrite andb_false_r, orb_false_r.
  - rewrite (fire_unreached wired ev w Hr) in E. injection E as <-.
    now rewrite !andb_false_r, andb_true_r, orb_false_r.
Qed.

Lemma fire_all_flags (wired : bool) (evs : list sax_event) :
  forall w w',
  sax_ (pimpl w) = installed ->
  fire_all wired evs w = Return tt w' ->
  okay_ (pimpl w') = okay_ (pimpl w) && negb (error_reached wired evs) /\
  warnings_ (pimpl w') = warnings_ (pimpl w) || warning_reached wired evs.
Proof.
  induction evs as [|ev evs IH]; intros w w' Hs; simpl.
  - intros [= <-]. now rewrite andb_true_r, orb_false_r.
  - unfold bind. destruct (fire wired ev w) as [[] w1| |] eqn:E; try discriminate.
    intros H.
    destruct (fire_flags wired ev w w1 Hs E) as (Ho1 & Hw1).
    destruct (fire_frame _ _ _ _ _ E) as (Hs1 & _ & _).
    destruct (IH w1 w' (eq_trans Hs1 Hs) H) as (Ho & Hw).
    rewrite Ho, Hw, Ho1, Hw1. unfold error_reached, warning_reached. simpl.
    rewrite negb_orb, andb_assoc, orb_assoc. auto.
Qed.

(** *** The calls of the callbacks *)

Lemma call_message_slot_trace (h : sax_callback) (p_set : bool) (message : string)
  (ap : va_list) (w w' : world) :
  call_message_slot vformat h p_set message ap w = Return tt w' ->
  exists n, trace w' = trace w ++ repeat call_xmlStopParser n.
Proof.
  destruct h; simpl.
  - intros [= <-]. exists 0%nat. simpl. now rewrite app_nil_r.
  - rewrite cb_tree_warning_exec. intros [= <-]. exists 0%nat.
    destruct p_set; simpl; now rewrite app_nil_r.
  - destruct p_set.
    + rewrite cb_tree_error_exec.
      destruct (Utility.printf2string _ _ _ _); [|discriminate].
      intros [= <-]. exists 1%nat. reflexivity.
    + rewrite cb_tree_error_null. intros [= <-]. exists 0%nat. simpl.
      now rewrite app_nil_r.
  - intros [= <-]. exists 0%nat. simpl. now rewrite app_nil_r.
Qed.

Lemma fire_trace (wired : bool) (ev : sax_event) (w w' : world) :
  fire wired ev w = Return tt w' ->
  exists n, trace w' = trace w ++ repeat call_xmlStopParser n.
Proof.
  destruct ev; unfold TreeParser.fire, bind, get;
    try apply call_message_slot_trace.
  destruct (sax_ignorableWhitespace (sax_ (pimpl w))); intros [= <-];
    exists 0%nat; simpl; now rewrite app_nil_r.
Qed.

Lemma fire_all_trace (wired : bool) (evs : list sax_event) :
  forall w w', fire_all wired evs w = Return tt w' ->
  exists n, trace w' = trace w ++ repeat call_xmlStopParser n.
Proof.
  induction evs as [|ev evs IH]; intros w w'; simpl.
  - intros [= <-]. exists 0%nat. simpl. now rewrite app_nil_r.
  - unfold bind. destruct (fire wired ev w) as [[] w1| |] eqn:E; try discriminate.
    intros H. apply IH in H. apply fire_trace in E.
    destruct H as [n Hn], E as [m Hm]. exists (m + n)%nat.
    now rewrite Hn, Hm, <- app_assoc, repeat_app.
Qed.

Lemma count_repeat_stop (f : call -> bool) (n : nat) :
  f call_xmlStopParser = false -> count f (repeat call_xmlStopParser n) = 0%nat.
Proof.
  intros Hf. unfold count. induction n as [|n IH]; simpl; [reflexivity|].
  now rewrite Hf.
Qed.

(** No callback throws: each body is inside [try { } catch (...) { }]. *)
Lemma call_message_slot_no_throw (h : sax_callback) (p_set : bool) (message : string)
  (ap : va_list) (w : world) (e : exn) (w' : world) :
  call_message_slot vformat h p_set message ap w <> Throw e w'.
Proof.
  destruct h; simpl; try discriminate.
  - rewrite cb_tree_warning_exec. discriminate.
  - destruct p_set; [rewrite cb_tree_error_exec | rewrite cb_tree_error_null];
      [destruct (Utility.printf2string _ _ _ _)|]; discriminate.
Qed.

Lemma fire_all_no_throw (wired : bool) (evs : list sax_event) :
  forall w e w', fire_all wired evs w <> Throw e w'.
Proof.
  induction evs as [|ev evs IH]; intros w e w'; simpl; [discriminate|].
  unfold bind. destruct (fire wired ev w) as [[] w1|e1 w1|k] eqn:E.
  - apply IH.
  - exfalso. destruct ev; unfold TreeParser.fire, bind, get in E;
      try (now apply call_message_slot_no_throw in E).
    destruct (sax_ignorableWhitespace (sax_ (pimpl w))); discriminate E.
  - discriminate.
Qed.

(** *** The session when the parser returns *)

Lemma parse_session_flags (i : input) (w1 : world) :
  parse_session i = Return tt w1 ->
  okay_ (pimpl w1) = negb (error_reached (wired i) (events_of i)) /\
  warnings_ (pimpl w1) = warning_reached (wired i) (events_of i).
Proof.
  destruct i as [name|data size].
  - rewrite session_file. intros H.
    now apply fire_all_flags in H.
  - rewrite session_memory. cbv zeta.
    destruct (ctxt_created (libxml_memory data size)); [|discriminate].
    destruct (ctxt_has_sax (libxml_memory data size));
      intros H; apply fire_all_flags in H; try reflexivity; exact H.
Qed.

Lemma parse_session_counts (i : input) (w1 : world) (f : call -> bool) :
  parse_session i = Return tt w1 ->
  f call_xmlStopParser = false ->
  f call_xmlFree_sax = false ->
  count f (trace w1) = 0%nat.
Proof.
  intros Hs Hstop Hfree. destruct i as [name|data size].
  - rewrite session_file in Hs. apply fire_all_trace in Hs.
    destruct Hs as [n ->]. rewrite count_app, count_repeat_stop by exact Hstop.
    reflexivity.
  - rewrite session_memory in Hs. cbv zeta in Hs.
    destruct (ctxt_created (libxml_memory data size)); [|discriminate Hs].
    apply fire_all_trace in Hs. destruct Hs as [n ->].
    rewrite count_app, count_repeat_stop by exact Hstop.
    destruct (ctxt_has_sax (libxml_memory data size)); simpl; [|reflexivity].
    unfold count. simpl. now rewrite Hfree.
Qed.

Lemma parse_session_throw (i : input) (e : exn) (w : world) :
  parse_session i = Throw e w ->
  e = std_bad_alloc /\ context_created i = false /\ trace w = [].
Proof.
  destruct i as [name|data size].
  - rewrite session_file. intros H. now apply fire_all_no_throw in H.
  - rewrite session_memory. cbv zeta. simpl.
    destruct (ctxt_created (libxml_memory data size)).
    + intros H. now apply fire_all_no_throw in H.
    + intros [= <- <-]. auto.
Qed.

Lemma parse_failed_condition (i : input) (w1 : world) :
  parse_session i = Return tt w1 ->
  parse_failed i (pimpl w1) = failure_condition i.
Proof.
  intros Hs. destruct (parse_session_flags i w1 Hs) as (Ho & _).
  destruct i as [name|data size]; simpl in *; rewrite Ho.
  - rewrite negb_andb, !negb_involutive. reflexivity.
  - now rewrite negb_involutive.
Qed.

(** The object a construction returns, in terms of the session the
    parser left. *)
Lemma construct_returns (i : input) (allow_exceptions : bool) (t : tree_parser)
  (w : world) :
  construct i allow_exceptions = Return t w ->
  exists w1,
    parse_session i = Return tt w1 /\
    t = {| pimpl_ := pimpl w |} /\
    warnings_ (pimpl w) = warnings_ (pimpl w1) /\
    okay_ (pimpl w) = negb (parse_failed i (pimpl w1)) /\
    (parse_failed i (pimpl w1) = true -> allow_exceptions = false).
Proof.
  intros Hc. destruct (parse_session i) as [[] w1|e w1|k] eqn:Hs.
  - exists w1. split; [reflexivity|].
    destruct i as [name|data size]; simpl construct in Hc.
    + rewrite file_exec, Hs in Hc. cbv zeta in Hc.
      destruct (parse_failed (from_file name) (pimpl w1)) eqn:Hf.
      * destruct allow_exceptions; [discriminate Hc|].
        injection Hc as <- <-.
        destruct (String.eqb (last_error_ (pimpl w1)) DEFAULT_ERROR),
                 (file_fopen (libxml_file name)),
                 (is_null (file_doc (libxml_file name))); simpl; auto.
      * injection Hc as <- <-. simpl. simpl in Hf.
        apply negb_false_iff, andb_prop in Hf. destruct Hf as [_ Hok].
        repeat split; auto. discriminate.
    + rewrite memory_exec, Hs in Hc. cbv zeta in Hc.
      destruct (parse_failed (from_memory data size) (pimpl w1)) eqn:Hf.
      * destruct allow_exceptions; [discriminate Hc|].
        injection Hc as <- <-. simpl. auto.
      * injection Hc as <- <-. simpl. repeat split; auto. discriminate.
  - destruct (construct_no_session vformat xmlKeepBlanksDefaultValue libxml_file
                libxml_memory i allow_exceptions) as [Ht _].
    rewrite (Ht _ _ Hs) in Hc. discriminate Hc.
  - destruct (construct_no_session vformat xmlKeepBlanksDefaultValue libxml_file
                libxml_memory i allow_exceptions) as [_ Hu].
    rewrite (Hu _ Hs) in Hc. discriminate Hc.
Qed.

(** *** What [failed()] and [had_warnings()] report *)

(** X3.  On every object a constructor returns, [failed()] is true exactly
    when the library gave no usable verdict (no tree; for memory, a document
    that is not well-formed or a nonzero return value) or an error or
    fatal-error callback found the session. *)
Theorem failed_iff_verdict_or_error_callback (i : input) (allow_exceptions : bool)
  (t : tree_parser) (w : world) :
  construct i allow_exceptions = Return t w ->
  failed t = failure_condition i.
Proof.
  intros Hc. destruct (construct_returns i allow_exceptions t w Hc)
    as (w1 & Hs & -> & _ & Hok & _).
  unfold failed. simpl. rewrite Hok, negb_involutive.
  now apply parse_failed_condition.
Qed.

(** X4.  On every object a constructor returns, [had_warnings()] is true
    exactly when a warning callback found the session during the parse;
    error callbacks and the failure handling do not touch the flag. *)
Theorem had_warnings_iff_warning_callback (i : input) (allow_exceptions : bool)
  (t : tree_parser) (w : world) :
  construct i allow_exceptions = Return t w ->
  had_warnings t = warning_reached (wired i) (events_of i).
Proof.
  intros Hc. destruct (construct_returns i allow_exceptions t w Hc)
    as (w1 & Hs & -> & Hw & _).
  unfold had_warnings. simpl. rewrite Hw.
  now destruct (parse_session_flags i w1 Hs).
Qed.

(** Callbacks that do not find the session can be dropped from a run. *)
Lemma fire_all_filter (wired : bool) (evs : list sax_event) :
  forall w,
  fire_all wired evs w = fire_all wired (filter (reaches_session wired) evs) w.
Proof.
  induction evs as [|ev evs IH]; intros w; simpl; [reflexivity|].
  destruct (reaches_session wired ev) eqn:Hr; simpl; unfold bind.
  - destruct (fire wired ev w) as [[] w1| |]; auto.
  - rewrite (fire_unreached wired ev w Hr). apply IH.
Qed.

Lemma filter_reached_quiet (wired : bool) (evs : list sax_event) :
  error_reached wired evs = false ->
  Forall (fun ev => is_error_event ev = false) (filter (reaches_session wired) evs).
Proof.
  unfold error_reached. induction evs as [|ev evs IH]; simpl; [constructor|].
  intros H. apply orb_false_iff in H. destruct H as [H1 H2].
  destruct (reaches_session wired ev) eqn:Hr; [|now apply IH].
  constructor; [|now apply IH]. now rewrite andb_true_r in H1.
Qed.

(** X5.  When no error or fatal-error callback finds the session, the
    library hands back a tree and (for memory) a context was created, the
    document is well-formed and the return value is zero, the construction
    returns an object for either value of [allow_exceptions]: [failed()] is
    false, the document handle holds the tree, and the error message is
    the sentinel.  Warnings, whitespace callbacks and error callbacks with
    a null session pointer do not prevent this. *)
Theorem clean_parse_succeeds (i : input) (allow_exceptions : bool) :
  context_created i = true ->
  failure_condition i = false ->
  exists t w,
    construct i allow_exceptions = Return t w /\
    failed t = false /\
    doc_data (get_document t) = library_tree i /\
    get_error_message t = DEFAULT_ERROR.
Proof.
  intros Hctx Hcond.
  assert (Herr : error_reached (wired i) (events_of i) = false).
  { destruct i; simpl in *; repeat (apply orb_false_iff in Hcond; destruct Hcond as [Hcond ?]);
      assumption. }
  assert (Hs : exists w1, parse_session i = Return tt w1 /\
                          last_error_ (pimpl w1) = DEFAULT_ERROR).
  { apply filter_reached_quiet in Herr.
    destruct i as [name|data size]; simpl in Herr, Hctx.
    - rewrite session_file, fire_all_filter.
      destruct (fire_all_quiet vformat xmlKeepBlanksDefaultValue false _ parse_start
                  eq_refl Herr) as (w1 & E & Hl & _).
      exists w1. auto.
    - rewrite session_memory. cbv zeta. rewrite Hctx, fire_all_filter.
      destruct (ctxt_has_sax (libxml_memory data size));
        match goal with
        | |- context [TreeParser.fire_all vformat true ?evs ?w] =>
            destruct (fire_all_quiet vformat xmlKeepBlanksDefaultValue true evs w
                        eq_refl Herr) as (w1 & E & Hl & _)
        end; exists w1; auto. }
  destruct Hs as (w1 & Hs & Hl).
  assert (Hf : parse_failed i (pimpl w1) = false)
    by now rewrite (parse_failed_condition i w1 Hs).
  destruct (construct_success vformat xmlKeepBlanksDefaultValue libxml_file
              libxml_memory i allow_exceptions w1 Hs Hf)
    as (w2 & Hr & Hok & Hdoc & Hle & _).
  exists {| pimpl_ := pimpl w2 |}, w2. split; [exact Hr|].
  unfold failed, get_document, get_error_message. simpl.
  rewrite Hok, Hdoc, Hle, Hl. auto.
Qed.

(** *** Exceptions *)

(** X6.  With [allow_exceptions = false] the file constructor throws
    nothing, whatever the library does; the memory constructor throws
    nothing but [std::bad_alloc], and that only when no parsing context was
    created. *)
Theorem only_bad_alloc_when_disallowed (i : input) (e : exn) (w : world) :
  construct i false = Throw e w ->
  e = std_bad_alloc /\ is_file i = false /\ context_created i = false.
Proof.
  intros Hc. destruct (parse_session i) as [[] w1|e1 w1|k] eqn:Hs.
  - exfalso. destruct (parse_failed i (pimpl w1)) eqn:Hf.
    + destruct (construct_failure vformat xmlKeepBlanksDefaultValue libxml_file
                  libxml_memory i false w1 Hs Hf) as (w4 & Hr & _).
      rewrite Hr in Hc. discriminate Hc.
    + destruct (construct_success vformat xmlKeepBlanksDefaultValue libxml_file
                  libxml_memory i false w1 Hs Hf) as (w2 & Hr & _).
      rewrite Hr in Hc. discriminate Hc.
  - destruct (construct_no_session vformat xmlKeepBlanksDefaultValue libxml_file
                libxml_memory i false) as [Ht _].
    rewrite (Ht _ _ Hs) in Hc. injection Hc as <- _.
    destruct (parse_session_throw i e1 w1 Hs) as (-> & Hctx & _).
    repeat split; auto. destruct i; [discriminate Hctx | reflexivity].
  - destruct (construct_no_session vformat xmlKeepBlanksDefaultValue libxml_file
                libxml_memory i false) as [_ Hu].
    rewrite (Hu _ Hs) in Hc. discriminate Hc.
Qed.

(** X7.  [allow_exceptions] changes only how a failure is reported.  If
    the constructor throws [xml::exception] when exceptions are allowed,
    then with exceptions disallowed it returns an object whose [failed()]
    is true and whose [get_error_message()] is the text of that exception;
    and if it returns an object when exceptions are allowed, it returns the
    same object, a successful one, when they are not. *)
Theorem allow_exceptions_only_changes_reporting (i : input) :
  (forall what w,
     construct i true = Throw (xml_exception what) w ->
     exists t w', construct i false = Return t w' /\
                  failed t = true /\ get_error_message t = what /\
                  w = log call_delete_tree_impl w') /\
  (forall t w,
     construct i true = Return t w ->
     construct i false = Return t w /\ failed t = false).
Proof.
  destruct (parse_session i) as [[] w1|e1 w1|k] eqn:Hs.
  - destruct i as [name|data size]; simpl construct;
      [rewrite !file_exec | rewrite !memory_exec];
      rewrite Hs; cbv zeta;
      match goal with
      | |- context [TreeParser.parse_failed ?a ?b ?c ?d] =>
          destruct (TreeParser.parse_failed a b c d) eqn:Hf
      end;
      (split; [intros what w Hc | intros t w Hc]; try discriminate Hc).
    + injection Hc as <- <-. eexists. eexists. split; [reflexivity|].
      unfold failed, get_error_message. simpl. auto.
    + injection Hc as <- <-. split; [reflexivity|].
      unfold failed. simpl. simpl in Hf.
      apply negb_false_iff, andb_prop in Hf. destruct Hf as [_ ->]. reflexivity.
    + injection Hc as <- <-. eexists. eexists. split; [reflexivity|].
      unfold failed, get_error_message. simpl. auto.
    + injection Hc as <- <-. split; reflexivity.
  - destruct (construct_no_session vformat xmlKeepBlanksDefaultValue libxml_file
                libxml_memory i true) as [Ht _].
    rewrite (Ht _ _ Hs).
    destruct (parse_session_throw i e1 w1 Hs) as (-> & _ & _).
    split; intros; discriminate.
  - destruct (construct_no_session vformat xmlKeepBlanksDefaultValue libxml_file
                libxml_memory i true) as [_ Hu].
    rewrite (Hu _ Hs). split; intros; discriminate.
Qed.

(** X8.  Callbacks that do not find the session (a null session pointer,
    or the whitespace callback) have no effect: the run and the same run
    with those callbacks removed end the same way, with the same session and
    the same calls made. *)
Theorem unreached_callbacks_have_no_effect (wired : bool) (evs : list sax_event)
  (w : world) :
  fire_all wired evs w = fire_all wired (filter (reaches_session wired) evs) w.
Proof. apply fire_all_filter. Qed.

(** *** Resources *)

Ltac count_trace H0 :=
  cbn [calls_made trace log on_pimpl pimpl is_null negb orb andb];
  rewrite ?count_app, ?H0; reflexivity.

(** X9.  Once the parser has returned, the memory constructor frees the
    parsing context exactly once on every path, success or failure, with or
    without exception; the file constructor, which creates none, never
    does. *)
Theorem parser_context_freed_exactly_once (i : input) (allow_exceptions : bool)
  (w1 : world) :
  parse_session i = Return tt w1 ->
  count is_xmlFreeParserCtxt (calls_made (construct i allow_exceptions))
  = if is_file i then 0%nat else 1%nat.
Proof.
  intros Hs.
  assert (H0 : count is_xmlFreeParserCtxt (trace w1) = 0%nat)
    by now apply (parse_session_counts i).
  destruct i as [name|data size]; simpl construct; simpl is_file;
    [rewrite file_exec | rewrite memory_exec]; rewrite Hs; cbv zeta.
  - destruct (parse_failed (from_file name) (pimpl w1)); [|count_trace H0].
    destruct (String.eqb (last_error_ (pimpl w1)) DEFAULT_ERROR),
             (file_fopen (libxml_file name)),
             (is_null (file_doc (libxml_file name))),
             allow_exceptions; count_trace H0.
  - destruct (parse_failed (from_memory data size) (pimpl w1)),
             allow_exceptions; count_trace H0.
Qed.

(** X10.  Once the parser has returned, [xmlFreeDoc] is called at most
    once and only on the tree the library handed back: never when the
    construction succeeds (the document handle then owns the tree), and
    exactly once when it fails with a tree (the memory constructor also
    makes the call when [ctxt->myDoc] is null). *)
Theorem tree_freed_only_on_failure (i : input) (allow_exceptions : bool) (w1 : world) :
  parse_session i = Return tt w1 ->
  let r := construct i allow_exceptions in
  (forall d, In (call_xmlFreeDoc d) (calls_made r) -> d = library_tree i) /\
  count is_xmlFreeDoc (calls_made r)
  = if failure_condition i && (negb (is_file i) || negb (is_null (library_tree i)))
    then 1%nat else 0%nat.
Proof.
  intros Hs r. subst r.
  assert (H0 : count is_xmlFreeDoc (trace w1) = 0%nat)
    by now apply (parse_session_counts i).
  assert (Hnot : forall d, ~ In (call_xmlFreeDoc d) (trace w1))
    by (intros d; now apply (count_zero_not_In is_xmlFreeDoc)).
  rewrite <- (parse_failed_condition i w1 Hs).
  destruct i as [name|data size]; simpl construct; simpl is_file; simpl library_tree;
    [rewrite file_exec | rewrite memory_exec]; rewrite Hs; cbv zeta.
  - destruct (parse_failed (from_file name) (pimpl w1));
      [|split; [intros d Hin; now apply Hnot in Hin | count_trace H0]].
    destruct (String.eqb (last_error_ (pimpl w1)) DEFAULT_ERROR),
             (file_fopen (libxml_file name)),
             (file_doc (libxml_file name)) as [d0|],
             allow_exceptions;
      (split; [| count_trace H0]);
      cbn [calls_made trace log on_pimpl pimpl is_null];
      intros d Hin; rewrite ?in_app_iff in Hin; simpl in Hin;
      decompose [or] Hin; try discriminate; try contradiction;
      try (now exfalso; eapply Hnot; eauto);
      match goal with H : call_xmlFreeDoc _ = call_xmlFreeDoc _ |- _ =>
        now injection H end.
  - destruct (parse_failed (from_memory data size) (pimpl w1)), allow_exceptions;
      (split; [| count_trace H0]);
      cbn [calls_made trace log on_pimpl pimpl];
      intros d Hin; rewrite ?in_app_iff in Hin; simpl in Hin;
      decompose [or] Hin; try discriminate; try contradiction;
      try (now exfalso; eapply Hnot; eauto);
      match goal with H : call_xmlFreeDoc _ = call_xmlFreeDoc _ |- _ =>
        now injection H end.
Qed.

(** X11.  The secondary diagnostic of the file constructor leaks no
    stream: [fopen] is called at most once, exactly when the parse failed
    with [last_error_] equal to the sentinel, and [fclose] is called exactly
    when that [fopen] succeeded. *)
Theorem diagnostic_stream_closed (name : string) (allow_exceptions : bool) (w1 : world) :
  parse_session (from_file name) = Return tt w1 ->
  let r := tree_parser_file name allow_exceptions in
  count is_fopen (calls_made r)
  = (if failure_condition (from_file name)
        && String.eqb (last_error_ (pimpl w1)) DEFAULT_ERROR
     then 1%nat else 0%nat) /\
  count is_fclose (calls_made r)
  = if file_fopen (libxml_file name) then count is_fopen (calls_made r) else 0%nat.
Proof.
  intros Hs r. subst r.
  assert (H0 : count is_fopen (trace w1) = 0%nat)
    by now apply (parse_session_counts (from_file name)).
  assert (H1 : count is_fclose (trace w1) = 0%nat)
    by now apply (parse_session_counts (from_file name)).
  rewrite <- (parse_failed_condition _ w1 Hs).
  rewrite file_exec, Hs. cbv zeta.
  destruct (parse_failed (from_file name) (pimpl w1)).
  - destruct (String.eqb (last_error_ (pimpl w1)) DEFAULT_ERROR),
             (file_fopen (libxml_file name)),
             (is_null (file_doc (libxml_file name))),
             allow_exceptions;
      cbn [calls_made trace log on_pimpl pimpl andb];
      rewrite ?count_app, ?H0, ?H1; split; reflexivity.
  - cbn [calls_made trace log on_pimpl pimpl andb]. rewrite H0, H1.
    now destruct (file_fopen (libxml_file name)).
Qed.

(** X12.  The session is deleted exactly once when a constructor throws
    (by the [auto_ptr]), and not at all when it returns: the object then
    owns it. *)
Theorem session_deleted_iff_thrown (i : input) (allow_exceptions : bool) :
  match construct i allow_exceptions with
  | Return _ w => count is_delete_tree_impl (trace w) = 0%nat
  | Throw _ w => count is_delete_tree_impl (trace w) = 1%nat
  | Undefined _ => True
  end.
Proof.
  destruct (parse_session i) as [[] w1|e1 w1|k] eqn:Hs.
  - assert (H0 : count is_delete_tree_impl (trace w1) = 0%nat)
      by now apply (parse_session_counts i).
    destruct i as [name|data size]; simpl construct;
      [rewrite file_exec | rewrite memory_exec]; rewrite Hs; cbv zeta.
    + destruct (parse_failed (from_file name) (pimpl w1)); [|count_trace H0].
      destruct (String.eqb (last_error_ (pimpl w1)) DEFAULT_ERROR),
               (file_fopen (libxml_file name)),
               (is_null (file_doc (libxml_file name))),
               allow_exceptions; count_trace H0.
    + destruct (parse_failed (from_memory data size) (pimpl w1)),
               allow_exceptions; count_trace H0.
  - destruct (construct_no_session vformat xmlKeepBlanksDefaultValue libxml_file
                libxml_memory i allow_exceptions) as [Ht _].
    rewrite (Ht _ _ Hs).
    destruct (parse_session_throw i e1 w1 Hs) as (_ & _ & Htr).
    cbn [trace log]. now rewrite Htr.
  - destruct (construct_no_session vformat xmlKeepBlanksDefaultValue libxml_file
                libxml_memory i allow_exceptions) as [_ Hu].
    now rewrite (Hu _ Hs).
Qed.

End Facts.

(** *** The theorems on the sample behaviours *)

Import Examples.

Local Abbreviation construct_example :=
  (construct vformat_subset 1 libxml_file_example libxml_memory_example).
Local Abbreviation parse_session_example :=
  (parse_session vformat_subset 1 libxml_file_example libxml_memory_example).

(** The file with content after its root element: a tree, but an error
    callback found the session. *)
Lemma failed_iff_verdict_or_error_callback_witness :
  exists t w,
    construct_example (from_file "extra.xml") false = Return t w /\
    failure_condition libxml_file_example libxml_memory_example (from_file "extra.xml")
      = true /\
    failed t = true.
Proof.
  eexists. eexists. split; [vm_compute; reflexivity|]. split; [reflexivity|].
  exact (failed_iff_verdict_or_error_callback vformat_subset 1 libxml_file_example
           libxml_memory_example (from_file "extra.xml") false _ _ eq_refl).
Defined.

Lemma had_warnings_iff_warning_callback_witness :
  exists t w,
    construct_example (from_file "extra.xml") false = Return t w /\
    had_warnings t = true.
Proof.
  eexists. eexists. split; [vm_compute; reflexivity|].
  exact (had_warnings_iff_warning_callback vformat_subset 1 libxml_file_example
           libxml_memory_example (from_file "extra.xml") false _ _ eq_refl).
Defined.

Lemma clean_parse_succeeds_witness :
  exists t w,
    construct_example (from_memory "<a><b/></a>" 11) true = Return t w /\
    failed t = false /\
    doc_data (get_document t) = Some 1%nat /\
    get_error_message t = DEFAULT_ERROR.
Proof.
  exact (clean_parse_succeeds vformat_subset 1 libxml_file_example
           libxml_memory_example (from_memory "<a><b/></a>" 11) true eq_refl eq_refl).
Defined.

(** The empty buffer, for which no context is created. *)
Lemma only_bad_alloc_when_disallowed_witness :
  construct_example (from_memory EmptyString 0) false
    = Throw std_bad_alloc (log call_delete_tree_impl (new_tree_impl 1)) /\
  std_bad_alloc = std_bad_alloc /\
  is_file (from_memory EmptyString 0) = false /\
  context_created libxml_memory_example (from_memory EmptyString 0) = false.
Proof.
  split; [reflexivity|].
  exact (only_bad_alloc_when_disallowed vformat_subset 1 libxml_file_example
           libxml_memory_example (from_memory EmptyString 0) std_bad_alloc _ eq_refl).
Defined.

(** The missing file: the text of the exception is the text of the query. *)
Lemma allow_exceptions_only_changes_reporting_witness :
  exists t w',
    construct_example (from_file "missing.xml") false = Return t w' /\
    failed t = true /\
    get_error_message t
      = ("failed to open file " ++ DQUOTE ++ "missing.xml" ++ DQUOTE)%string.
Proof.
  destruct (proj1 (allow_exceptions_only_changes_reporting vformat_subset 1
                     libxml_file_example libxml_memory_example
                     (from_file "missing.xml"))
              ("failed to open file " ++ DQUOTE ++ "missing.xml" ++ DQUOTE)%string
              _ eq_refl)
    as (t & w' & H1 & H2 & H3 & _).
  exists t, w'. auto.
Defined.

(** The buffer with a mismatched tag. *)
Lemma parser_context_freed_exactly_once_witness :
  count is_xmlFreeParserCtxt
    (calls_made (construct_example (from_memory "<a><b></a>" 10) true)) = 1%nat.
Proof.
  exact (parser_context_freed_exactly_once vformat_subset 1 libxml_file_example
           libxml_memory_example (from_memory "<a><b></a>" 10) true _ eq_refl).
Defined.

Lemma tree_freed_only_on_failure_witness :
  count is_xmlFreeDoc
    (calls_made (construct_example (from_memory "<a><b></a>" 10) true)) = 1%nat /\
  count is_xmlFreeDoc
    (calls_made (construct_example (from_memory "<a><b/></a>" 11) true)) = 0%nat.
Proof.
  split.
  - exact (proj2 (tree_freed_only_on_failure vformat_subset 1 libxml_file_example
                    libxml_memory_example (from_memory "<a><b></a>" 10) true _ eq_refl)).
  - exact (proj2 (tree_freed_only_on_failure vformat_subset 1 libxml_file_example
                    libxml_memory_example (from_memory "<a><b/></a>" 11) true _ eq_refl)).
Defined.

(** The missing file: [fopen] is tried once and fails, nothing is closed. *)
Lemma diagnostic_stream_closed_witness :
  count is_fopen
    (calls_made (tree_parser_file vformat_subset 1 libxml_file_example
                   "missing.xml" false)) = 1%nat /\
  count is_fclose
    (calls_made (tree_parser_file vformat_subset 1 libxml_file_example
                   "missing.xml" false)) = 0%nat.
Proof.
  exact (diagnostic_stream_closed vformat_subset 1 libxml_file_example
           libxml_memory_example "missing.xml" false _ eq_refl).
Defined.

End TreeParserMore.

(** ** The stylesheet *)

Module StylesheetFacts.

Import Stylesheet.

Lemma append_assoc (a b c : string) : ((a ++ b) ++ c = a ++ (b ++ c))%string.
Proof. induction a as [|x a IH]; simpl; [reflexivity | now rewrite IH]. Qed.

Lemma append_nil_r (a : string) : (a ++ EmptyString)%string = a.
Proof. induction a as [|x a IH]; simpl; [reflexivity | now rewrite IH]. Qed.

Lemma is_empty_true (s : string) : is_empty s = true <-> s = EmptyString.
Proof. destruct s; simpl; split; intros H; try reflexivity; discriminate H. Qed.

Lemma append_empty (a b : string) :
  (a ++ b)%string = EmptyString -> a = EmptyString /\ b = EmptyString.
Proof. destruct a; simpl; [auto | discriminate]. Qed.

(** *** The parameter array *)

Lemma push_params_app (v : list c_string_ptr) (p : param_type) :
  push_params v p
  = v ++ flat_map (fun kv => [Some (fst kv); Some (snd kv)]) p.
Proof.
  revert v. induction p as [|[name value] p IH]; intros v; simpl.
  - now rewrite app_nil_r.
  - rewrite IH, <- !app_assoc. reflexivity.
Qed.

Lemma flat_pairs_length (p : param_type) :
  length (flat_map (fun kv : string * string => [Some (fst kv); Some (snd kv)]) p)
  = (2 * length p)%nat.
Proof. induction p as [|kv p IH]; simpl; [reflexivity | rewrite IH; lia]. Qed.

Lemma flat_pairs_nth (p : param_type) :
  forall k name value,
  nth_error p k = Some (name, value) ->
  nth_error (flat_map (fun kv : string * string => [Some (fst kv); Some (snd kv)]) p)
    (2 * k) = Some (Some name) /\
  nth_error (flat_map (fun kv : string * string => [Some (fst kv); Some (snd kv)]) p)
    (2 * k + 1) = Some (Some value).
Proof.
  induction p as [|kv p IH]; intros k name value H.
  - destruct k; discriminate H.
  - destruct k as [|k]; simpl in H.
    + injection H as ->. simpl. auto.
    + replace (2 * S k)%nat with (S (S (2 * k))) by lia.
      replace (S (S (2 * k)) + 1)%nat with (S (S (2 * k + 1))) by lia.
      simpl. now apply IH.
Qed.

Lemma flat_pairs_not_null (p : param_type) :
  ~ In None (flat_map (fun kv : string * string => [Some (fst kv); Some (snd kv)]) p).
Proof.
  induction p as [|kv p IH]; simpl; [tauto|].
  intros [H|[H|H]]; try discriminate H. now apply IH.
Qed.

(** X13.  The array [make_vector_param] builds for libxslt from an empty
    vector holds, for the [k]-th entry of the map, its name at index [2k]
    and its value at index [2k+1]; it has [2n+1] elements for [n] entries,
    and its only null pointer is the last element. *)
Theorem make_vector_param_layout (p : param_type) :
  let v := make_vector_param [] p in
  length v = (2 * length p + 1)%nat /\
  nth_error v (2 * length p) = Some None /\
  ~ In None (firstn (2 * length p) v) /\
  forall k name value,
    nth_error p k = Some (name, value) ->
    nth_error v (2 * k) = Some (Some name) /\
    nth_error v (2 * k + 1) = Some (Some value).
Proof.
  cbv zeta. unfold make_vector_param. rewrite push_params_app. simpl app.
  pose proof (flat_pairs_length p) as Hlen.
  pose proof (flat_pairs_not_null p) as Hnn.
  pose proof (flat_pairs_nth p) as Hnth.
  set (body := flat_map _ p) in *. clearbody body.
  unfold c_string_ptr in *.
  split; [rewrite length_app; cbn [length]; lia|].
  split; [rewrite nth_error_app2 by lia; now rewrite Hlen, Nat.sub_diag|].
  split.
  - rewrite <- Hlen, firstn_app, Nat.sub_diag, firstn_all. cbn [firstn].
    now rewrite app_nil_r.
  - intros k name value H.
    destruct (Hnth k name value H) as [H1 H2].
    assert (Hk : (k < length p)%nat) by (apply nth_error_Some; congruence).
    split; rewrite nth_error_app1 by lia; assumption.
Qed.

Section Facts.

Variable vformat : formatter.
Variable xmlKeepBlanksDefaultValue : Z.
Variable libxml_file : string -> TreeParser.file_run.
Variable xsltParseStylesheetDoc : TreeParser.xmlDocPtr -> xsltStylesheetPtr.
Variable libxslt_apply :
  xsltStylesheetPtr -> TreeParser.xmlDocPtr -> option (list c_string_ptr) -> xslt_run.

Local Abbreviation error_cb := (error_cb vformat).
Local Abbreviation fire := (fire vformat).
Local Abbreviation fire_all := (fire_all vformat).
Local Abbreviation apply_stylesheet := (apply_stylesheet vformat libxslt_apply).
Local Abbreviation run_of := (run_of libxslt_apply).
Local Abbreviation error_log := (error_log vformat).
Local Abbreviation appended_text := (appended_text vformat).

(** *** The error callback *)

Lemma error_cb_exec (message : string) (ap : va_list) (w : world)
  (st : xsltTransformState) :
  ctxt w = Some st ->
  error_cb message ap w =
    match Utility.printf2string vformat EmptyString message ap with
    | InBounds formatted =>
        Return tt
          {| impl := {| ss_ := ss_ (impl w); doc_ := doc_ (impl w);
                        error_ := (error_ (impl w) ++ NEWLINE ++ formatted)%string;
                        errors_occured_ := true |};
             ctxt := Some (if is_OK st then XSLT_STATE_STOPPED else st);
             trace := trace w |}
    | OutOfBounds k => Undefined (out_of_bounds_read k)
    end.
Proof.
  intros Hc. unfold Stylesheet.error_cb, bind, read_state. rewrite Hc.
  unfold modify, when, write_ctxt, get, lift_access, ret.
  destruct (Utility.printf2string vformat EmptyString message ap) as [f|k];
    destruct st; simpl; try reflexivity;
    unfold on_impl, append_error_, set_error_; simpl;
    rewrite append_assoc, ?Hc; reflexivity.
Qed.

(** One event of a run that returns: the context stays live, the
    stylesheet, the document and the calls are untouched, the flag records
    an error, and [error_] grows by the text of the event. *)
Lemma fire_effect (ev : xslt_event) (w w' : world) (st : xsltTransformState) :
  ctxt w = Some st ->
  fire ev w = Return tt w' ->
  (exists st', ctxt w' = Some st') /\
  ss_ (impl w') = ss_ (impl w) /\
  doc_ (impl w') = doc_ (impl w) /\
  trace w' = trace w /\
  errors_occured_ (impl w') = errors_occured_ (impl w) || is_xev_error ev /\
  error_ (impl w') = (error_ (impl w) ++ appended_text ev)%string.
Proof.
  intros Hc. destruct ev as [message ap|st1]; simpl.
  - rewrite (error_cb_exec message ap w st Hc).
    destruct (Utility.printf2string vformat EmptyString message ap) as [f|k];
      [|discriminate].
    intros [= <-]. simpl. rewrite orb_true_r. repeat split. eauto.
  - unfold bind, read_state. rewrite Hc. unfold write_ctxt.
    intros [= <-]. simpl. rewrite orb_false_r, append_nil_r. repeat split. eauto.
Qed.

Lemma fire_all_effect (evs : list xslt_event) :
  forall (w w' : world) (st : xsltTransformState),
  ctxt w = Some st ->
  fire_all evs w = Return tt w' ->
  (exists st', ctxt w' = Some st') /\
  ss_ (impl w') = ss_ (impl w) /\
  doc_ (impl w') = doc_ (impl w) /\
  trace w' = trace w /\
  errors_occured_ (impl w') = errors_occured_ (impl w) || existsb is_xev_error evs /\
  error_ (impl w') = (error_ (impl w) ++ error_log evs)%string.
Proof.
  induction evs as [|ev evs IH]; intros w w' st Hc; simpl.
  - intros [= <-]. rewrite orb_false_r, append_nil_r. repeat split. eauto.
  - unfold bind. destruct (fire ev w) as [[] w1| |] eqn:E; try discriminate.
    intros H.
    destruct (fire_effect ev w w1 st Hc E) as ([st1 Hc1] & Hs1 & Hd1 & Ht1 & He1 & Hx1).
    destruct (IH w1 w' st1 Hc1 H) as (Hc' & Hs & Hd & Ht & He & Hx).
    rewrite Hs, Hd, Ht, He, Hx, Hs1, Hd1, Ht1, He1, Hx1.
    rewrite orb_assoc, append_assoc. repeat split. exact Hc'.
Qed.

(** Every error callback appends at least a newline. *)
Lemma error_log_nonempty (evs : list xslt_event) (w w' : world)
  (st : xsltTransformState) :
  ctxt w = Some st ->
  fire_all evs w = Return tt w' ->
  existsb is_xev_error evs = true ->
  error_log evs <> EmptyString.
Proof.
  revert w st. induction evs as [|ev evs IH]; intros w st Hc; simpl;
    [discriminate|].
  unfold bind. destruct (fire ev w) as [[] w1| |] eqn:E; try discriminate.
  intros H Hex Habs. apply append_empty in Habs. destruct Habs as [Ha Hl].
  destruct (fire_effect ev w w1 st Hc E) as ([st1 Hc1] & _).
  destruct ev as [message ap|st2]; simpl in Hex.
  - simpl in E, Ha. rewrite (error_cb_exec message ap w st Hc) in E.
    destruct (Utility.printf2string vformat EmptyString message ap);
      [discriminate Ha | discriminate E].
  - now apply (IH w1 st1 Hc1 H Hex).
Qed.

(** *** [apply_stylesheet] from the point where libxslt returns *)

Lemma apply_stylesheet_exec (doc : TreeParser.xmlDocPtr) (p : option param_type)
  (w : world) :
  apply_stylesheet doc p w =
    let lib := run_of w doc p in
    match new_ctxt lib with
    | None => Undefined null_dereference
    | Some st =>
        match fire_all (xslt_events lib)
                (on_impl (set_errors_occured_ false) (with_ctxt (Some st) w)) with
        | Return _ w1 =>
            let w2 := with_ctxt None (log call_xsltFreeTransformContext w1) in
            let result := xslt_result lib in
            if negb (TreeParser.is_null result) && errors_occured_ (impl w1) then
              Return None (log (call_xmlFreeDoc result) w2)
            else if TreeParser.is_null result then
              Return None
                (if is_empty (error_ (impl w1))
                 then on_impl (set_error_ GENERIC_TRANSFORM_ERROR) w2 else w2)
            else Return result w2
        | Throw e w1 => Throw e w1
        | Undefined f => Undefined f
        end
    end.
Proof.
  unfold Stylesheet.apply_stylesheet, Stylesheet.run_of, bind, get. cbv zeta.
  destruct p as [p|];
    (destruct (new_ctxt _) as [st|]; [|reflexivity];
     unfold write_ctxt, modify, do_call, ret, when;
     match goal with
     | |- context [Stylesheet.fire_all vformat ?evs ?w0] =>
         destruct (Stylesheet.fire_all vformat evs w0) as [[] w1|e w1|f]
     end; try reflexivity;
     cbn [impl with_ctxt log on_impl];
     match goal with
     | |- context [negb (TreeParser.is_null ?r) && ?b] =>
         destruct (TreeParser.is_null r), b
     end; cbn [negb andb]; try reflexivity;
     destruct (is_empty (error_ (impl w1))); reflexivity).
Qed.

(** What [apply_stylesheet] leaves when it returns. *)
Lemma apply_stylesheet_returns (doc : TreeParser.xmlDocPtr) (p : option param_type)
  (w w' : world) (r : TreeParser.xmlDocPtr) :
  apply_stylesheet doc p w = Return r w' ->
  let lib := run_of w doc p in
  let errors := existsb is_xev_error (xslt_events lib) in
  let text := (error_ (impl w) ++ error_log (xslt_events lib))%string in
  r = (if errors then None else xslt_result lib) /\
  error_ (impl w') =
    (if TreeParser.is_null (xslt_result lib) && is_empty text
     then GENERIC_TRANSFORM_ERROR else text) /\
  (errors = true -> text <> EmptyString) /\
  errors_occured_ (impl w') = errors /\
  ss_ (impl w') = ss_ (impl w) /\
  doc_ (impl w') = doc_ (impl w) /\
  ctxt w' = None /\
  trace w' =
    trace w ++ call_xsltFreeTransformContext ::
      (if negb (TreeParser.is_null (xslt_result lib)) && errors
       then [call_xmlFreeDoc (xslt_result lib)] else []).
Proof.
  rewrite apply_stylesheet_exec. cbv zeta.
  destruct (new_ctxt (run_of w doc p)) as [st|]; [|discriminate].
  destruct (fire_all _ _) as [[] w1|e w1|f] eqn:E; try discriminate.
  destruct (fire_all_effect _
              (on_impl (set_errors_occured_ false) (with_ctxt (Some st) w)) w1 st
              eq_refl E)
    as (_ & Hs & Hd & Ht & He & Hx).
  simpl in Hs, Hd, Ht, He, Hx.
  assert (Hne : existsb is_xev_error (xslt_events (run_of w doc p)) = true ->
                (error_ (impl w) ++ error_log (xslt_events (run_of w doc p)))%string
                <> EmptyString).
  { intros Hex Habs. apply append_empty in Habs. destruct Habs as [_ Habs].
    now apply (error_log_nonempty _
                 (on_impl (set_errors_occured_ false) (with_ctxt (Some st) w)) w1 st
                 eq_refl E Hex). }
  rewrite He, Hx.
  destruct (xslt_result (run_of w doc p)) as [d|] eqn:Hres; simpl TreeParser.is_null;
    cbn [negb andb].
  - destruct (existsb is_xev_error (xslt_events (run_of w doc p))) eqn:Hex;
      intros [= <- <-]; cbn [impl ctxt trace log with_ctxt on_impl];
      rewrite ?Hs, ?Hd, ?Ht, ?He, ?Hx, ?Hex, <- ?app_assoc; repeat split; auto.
  - destruct (is_empty _) eqn:Hem; intros [= <- <-];
      cbn [impl ctxt trace log with_ctxt on_impl set_error_ error_ ss_ doc_
           errors_occured_];
      rewrite ?Hs, ?Hd, ?Ht, ?He, ?Hx, <- ?app_assoc.
    + destruct (existsb is_xev_error (xslt_events (run_of w doc p))) eqn:Hex;
        repeat split; auto.
    + destruct (existsb is_xev_error (xslt_events (run_of w doc p))) eqn:Hex;
        repeat split; auto.
Qed.

(** *** The transformation *)

(** X14.  When [apply_stylesheet] returns, the error text of the
    stylesheet is the text it held before the call (it is never cleared),
    followed, for every error callback of the run in order, by a newline
    and the formatted message (the first message too is preceded by a
    newline); if libxslt returned no tree and that text is empty, it is the
    generic transformation message instead. *)
Theorem apply_stylesheet_error_text (doc : TreeParser.xmlDocPtr)
  (p : option param_type) (w w' : world) (r : TreeParser.xmlDocPtr) :
  apply_stylesheet doc p w = Return r w' ->
  let lib := run_of w doc p in
  let text := (error_ (impl w) ++ error_log (xslt_events lib))%string in
  error_ (impl w') =
    if TreeParser.is_null (xslt_result lib) && is_empty text
    then GENERIC_TRANSFORM_ERROR else text.
Proof.
  intros H. now destruct (apply_stylesheet_returns doc p w w' r H) as (_ & Ht & _).
Qed.

(** X15.  [apply_stylesheet] returns the tree libxslt produced exactly
    when no error callback fired during the run; if one fired, it returns
    the null pointer even though libxslt produced a tree. *)
Theorem apply_stylesheet_result (doc : TreeParser.xmlDocPtr) (p : option param_type)
  (w w' : world) (r : TreeParser.xmlDocPtr) :
  apply_stylesheet doc p w = Return r w' ->
  let lib := run_of w doc p in
  r = if existsb is_xev_error (xslt_events lib) then None else xslt_result lib.
Proof.
  intros H. now destruct (apply_stylesheet_returns doc p w w' r H) as (Hr & _).
Qed.

Lemma null_result_leaves_text (doc : TreeParser.xmlDocPtr)
  (p : option param_type) (w w' : world) :
  apply_stylesheet doc p w = Return None w' ->
  error_ (impl w') <> EmptyString.
Proof.
  intros H.
  destruct (apply_stylesheet_returns doc p w w' None H) as (Hr & Ht & Hne & _).
  cbv zeta in *. rewrite Ht.
  destruct (existsb is_xev_error (xslt_events (run_of w doc p))) eqn:Hex.
  - specialize (Hne eq_refl).
    destruct (TreeParser.is_null _ && is_empty _) eqn:Hc; [discriminate|exact Hne].
  - rewrite <- Hr. simpl TreeParser.is_null. cbn [andb].
    destruct (is_empty _) eqn:Hem; [discriminate|].
    intros Habs. rewrite Habs in Hem. discriminate Hem.
Qed.

(** X16.  Whenever [apply_stylesheet] returns the null pointer, the error
    text of the stylesheet is not empty. *)
Theorem apply_stylesheet_null_has_message (doc : TreeParser.xmlDocPtr)
  (p : option param_type) (w w' : world) :
  apply_stylesheet doc p w = Return None w' ->
  error_ (impl w') <> EmptyString.
Proof. apply null_result_leaves_text. Qed.

(** X17.  When [apply_stylesheet] returns, it has freed the
    transformation context exactly once, it has called [xmlFreeDoc] exactly
    when libxslt produced a tree and an error callback fired, on that tree,
    and it has made no other call; so a tree it returns has not been
    freed. *)
Theorem apply_stylesheet_resources (doc : TreeParser.xmlDocPtr)
  (p : option param_type) (w w' : world) (r : TreeParser.xmlDocPtr) :
  apply_stylesheet doc p w = Return r w' ->
  let lib := run_of w doc p in
  trace w' =
    trace w ++ call_xsltFreeTransformContext ::
      (if negb (TreeParser.is_null (xslt_result lib))
          && existsb is_xev_error (xslt_events lib)
       then [call_xmlFreeDoc (xslt_result lib)] else []) /\
  (r <> None -> trace w' = trace w ++ [call_xsltFreeTransformContext]).
Proof.
  intros H.
  destruct (apply_stylesheet_returns doc p w w' r H)
    as (Hr & _ & _ & _ & _ & _ & _ & Ht).
  cbv zeta in *. split; [exact Ht|].
  intros Hnn. rewrite Ht.
  destruct (existsb is_xev_error (xslt_events (run_of w doc p)));
    [now elim Hnn|]. now rewrite andb_false_r.
Qed.

(** *** The methods [apply] *)

(** X18.  [bool apply(doc, result)], with or without parameters: when it
    returns false the document [result] is untouched and the error text is
    not empty; when it returns true no error callback fired and [result]
    holds the tree libxslt produced, which is not null. *)
Theorem apply_into_outcomes (doc result result' : TreeParser.document)
  (p : option param_type) (w w' : world) (b : bool) :
  Stylesheet.apply_into vformat libxslt_apply doc result p w = Return (b, result') w' ->
  let lib := run_of w (get_doc_data_read_only doc) p in
  if b then
    existsb is_xev_error (xslt_events lib) = false /\
    xslt_result lib <> None /\
    TreeParser.doc_data result' = xslt_result lib
  else
    result' = result /\ error_ (impl w') <> EmptyString.
Proof.
  unfold Stylesheet.apply_into, bind, get. cbv zeta.
  destruct (apply_stylesheet (get_doc_data_read_only doc) p w) as [r w1|e w1|f] eqn:E;
    try discriminate.
  pose proof (proj1 (apply_stylesheet_returns _ _ _ _ _ E)) as Hr. cbv zeta in Hr.
  destruct r as [d|]; simpl TreeParser.is_null; cbn [negb]; unfold ret;
    intros [= <- <- <-].
  - destruct (existsb is_xev_error _); [discriminate Hr|].
    rewrite <- Hr. repeat split. discriminate.
  - split; [reflexivity|]. now apply (null_result_leaves_text _ _ _ _ E).
Qed.

(** X19.  [xml::document& apply(doc)], with or without parameters, throws
    nothing but [xml::exception]; the exception carries the error text of
    the stylesheet, which is not empty; and when the method returns, the
    document it returns holds the tree libxslt produced, which is not null,
    and no error callback fired. *)
Theorem apply_outcomes (doc : TreeParser.document) (p : option param_type)
  (w : world) :
  let lib := run_of w (get_doc_data_read_only doc) p in
  match Stylesheet.apply vformat libxslt_apply doc p w with
  | Return d w' =>
      TreeParser.doc_data d = xslt_result lib /\
      xslt_result lib <> None /\
      existsb is_xev_error (xslt_events lib) = false /\
      doc_ (impl w') = d
  | Throw e w' =>
      e = TreeParser.xml_exception (error_ (impl w')) /\
      error_ (impl w') <> EmptyString
  | Undefined _ => True
  end.
Proof.
  unfold Stylesheet.apply, bind, get. cbv zeta.
  destruct (apply_stylesheet (get_doc_data_read_only doc) p w) as [r w1|e w1|f] eqn:E.
  - pose proof (proj1 (apply_stylesheet_returns _ _ _ _ _ E)) as Hr. cbv zeta in Hr.
    destruct r as [d|]; simpl TreeParser.is_null; cbv iota.
    + unfold modify, ret. simpl.
      destruct (existsb is_xev_error _); [discriminate Hr|].
      rewrite <- Hr. repeat split. discriminate.
    + unfold throw. split; [reflexivity|].
      now apply (null_result_leaves_text _ _ _ _ E).
  - exfalso. rewrite apply_stylesheet_exec in E. cbv zeta in E.
    destruct (new_ctxt _) as [st|]; [|discriminate E].
    destruct (fire_all _ _) as [[] w2|e2 w2|f2] eqn:E2; try discriminate E.
    + destruct (negb _ && _); [discriminate E|].
      destruct (TreeParser.is_null _); discriminate E.
    + clear E. revert E2. generalize (on_impl (set_errors_occured_ false)
                                        (with_ctxt (Some st) w)).
      induction (xslt_events _) as [|ev evs IH]; intros w0; simpl; [discriminate|].
      unfold bind. destruct (fire ev w0) as [[] w3|e3 w3|f3] eqn:E3.
      * apply IH.
      * exfalso. destruct ev as [message ap|st1]; simpl in E3.
        -- unfold Stylesheet.error_cb, bind, read_state, modify, when, write_ctxt,
             get, lift_access, ret in E3.
           destruct (ctxt w0) as [s0|]; [|discriminate E3].
           destruct (is_OK s0); simpl in E3;
             destruct (Utility.printf2string vformat EmptyString message ap);
             discriminate E3.
        -- unfold bind, read_state, write_ctxt in E3.
           destruct (ctxt w0); discriminate E3.
      * discriminate.
  - exact I.
Qed.

(** *** The constructors *)

(** X20.  The constructor from a document has three outcomes only.  It
    returns a stylesheet whose pointer is the non-null one libxslt gave,
    with an empty error text, after releasing the tree of the document to
    it.  Or libxslt gave no stylesheet and it throws [xml::exception] with
    exactly the text [unknown XSLT parser error], having deleted its session
    and not released the document.  It never has undefined behaviour. *)
Theorem stylesheet_from_document_outcomes (doc : TreeParser.document) :
  let xmldoc := get_doc_data doc in
  match Stylesheet.stylesheet_from_document xsltParseStylesheetDoc doc with
  | Return (t, d) w =>
      ss_ (pimpl_ t) = xsltParseStylesheetDoc xmldoc /\
      ss_ (pimpl_ t) <> None /\
      get_error_message t = EmptyString /\
      d = TreeParser.document_empty /\
      trace w = [call_xsltParseStylesheetDoc xmldoc]
  | Throw e w =>
      xsltParseStylesheetDoc xmldoc = None /\
      e = TreeParser.xml_exception "unknown XSLT parser error" /\
      trace w = [call_xsltParseStylesheetDoc xmldoc; call_delete_pimpl]
  | Undefined _ => False
  end.
Proof.
  cbv zeta.
  unfold Stylesheet.stylesheet_from_document, auto_ptr_scope, parse_stylesheet_doc,
    bind, do_call, modify, get, when, throw, ret.
  cbn [impl log on_impl new_pimpl ss_ set_ss_ pimpl_ctor].
  remember (xsltParseStylesheetDoc (get_doc_data doc)) as x eqn:Hx.
  destruct x as [x|]; cbn; repeat split. discriminate.
Qed.

(** What the local tree parser of the file constructor returns. *)
Lemma local_parser_returns (filename : string) (t : TreeParser.tree_parser)
  (w0 : TreeParser.world) :
  TreeParser.tree_parser_file vformat xmlKeepBlanksDefaultValue libxml_file filename
    allow_exceptions_default = TreeParser.Return t w0 ->
  exists tree,
    TreeParser.file_doc (libxml_file filename) = Some tree /\
    TreeParser.doc_data (TreeParser.get_document t) = Some tree /\
    TreeParser.failed t = false.
Proof.
  rewrite (TreeParserFacts.tree_parser_file_exec vformat xmlKeepBlanksDefaultValue
             libxml_file (fun _ _ => Examples.no_context_run)).
  destruct (TreeParser.parse_session _ _ _ _ _) as [[] w1|e w1|k]; try discriminate.
  cbv zeta. unfold allow_exceptions_default.
  destruct (TreeParser.parse_failed _ _ _ _) eqn:Hf; [discriminate|].
  intros [= <- <-]. simpl in Hf.
  apply negb_false_iff, andb_prop in Hf. destruct Hf as [Hnn Hok].
  destruct (TreeParser.file_doc (libxml_file filename)) as [tree|];
    [|discriminate Hnn].
  exists tree. unfold TreeParser.failed, TreeParser.get_document. simpl.
  rewrite Hok. auto.
Qed.

(** X21.  The constructor from a file name.  If the tree parser throws
    (the file does not parse), that exception leaves the constructor as it
    is; the session is deleted and libxslt is not called.  Otherwise the
    parse succeeded and libxslt is given its tree, which is not null.  If
    libxslt gives a stylesheet, the constructor returns it and the tree
    parser is destroyed with an empty document handle: the tree now belongs
    to the stylesheet.  If not, the constructor throws [xml::exception] with
    exactly [unknown XSLT parser error], and the tree parser is destroyed
    still holding the tree. *)
Theorem stylesheet_from_file_outcomes (filename : string) :
  let parsed :=
    TreeParser.tree_parser_file vformat xmlKeepBlanksDefaultValue libxml_file
      filename allow_exceptions_default in
  let tmpdoc := TreeParser.file_doc (libxml_file filename) in
  match Stylesheet.stylesheet_from_file vformat xmlKeepBlanksDefaultValue libxml_file
          xsltParseStylesheetDoc filename with
  | Return (t, d) w =>
      (exists pt w0, parsed = TreeParser.Return pt w0 /\ TreeParser.failed pt = false) /\
      tmpdoc <> None /\
      ss_ (pimpl_ t) = xsltParseStylesheetDoc tmpdoc /\
      ss_ (pimpl_ t) <> None /\
      trace w = [call_xsltParseStylesheetDoc tmpdoc; call_tree_parser_destructor None]
  | Throw e w =>
      (exists w0, parsed = TreeParser.Throw e w0 /\ trace w = [call_delete_pimpl])
      \/
      ((exists pt w0, parsed = TreeParser.Return pt w0 /\ TreeParser.failed pt = false) /\
       tmpdoc <> None /\
       xsltParseStylesheetDoc tmpdoc = None /\
       e = TreeParser.xml_exception "unknown XSLT parser error" /\
       trace w = [call_xsltParseStylesheetDoc tmpdoc;
                  call_tree_parser_destructor tmpdoc; call_delete_pimpl])
  | Undefined f =>
      exists k, f = out_of_bounds_read k /\ parsed = TreeParser.Undefined k
  end.
Proof.
  cbv zeta.
  unfold Stylesheet.stylesheet_from_file, auto_ptr_scope, bind, construct_parser.
  destruct (TreeParser.tree_parser_file vformat xmlKeepBlanksDefaultValue libxml_file
              filename allow_exceptions_default) as [pt w0|e w0|k] eqn:Hp.
  - destruct (local_parser_returns filename pt w0 Hp) as (tree & Hdoc & Hpt & Hok).
    unfold parser_scope, parse_stylesheet_doc, bind, do_call, modify, get, when,
      throw, ret, get_doc_data.
    rewrite Hpt, Hdoc.
    cbn [impl log on_impl new_pimpl ss_ set_ss_ pimpl_ctor].
    remember (xsltParseStylesheetDoc (Some tree)) as x eqn:Hx.
    destruct x as [x|]; cbn.
    + repeat split; eauto; discriminate.
    + right. repeat split; eauto; discriminate.
  - left. exists w0. split; reflexivity.
  - exists k. split; reflexivity.
Qed.

End Facts.

(** *** The theorems on the sample behaviours *)

Import StylesheetExamples.

Local Abbreviation apply_stylesheet_example :=
  (Stylesheet.apply_stylesheet vformat_subset libxslt_apply_example).

(** The terminated transformation: both messages, each after a newline. *)
Lemma apply_stylesheet_error_text_witness :
  exists w',
    apply_stylesheet_example (Some 2%nat) None compiled = Return None w' /\
    error_ (impl w') =
      (NEWLINE ++ "xsl:value-of : could not compile select expression 'x|'"
       ++ NEWLINE ++ "xsl:message terminated")%string.
Proof.
  eexists. split; [vm_compute; reflexivity|].
  exact (apply_stylesheet_error_text vformat_subset libxslt_apply_example
           (Some 2%nat) None compiled _ None eq_refl).
Defined.

(** The clean transformation returns the tree of libxslt. *)
Lemma apply_stylesheet_result_witness :
  exists r w',
    apply_stylesheet_example (Some 1%nat) None compiled = Return r w' /\
    r = Some 8%nat.
Proof.
  eexists. eexists. split; [vm_compute; reflexivity|].
  exact (apply_stylesheet_result vformat_subset libxslt_apply_example
           (Some 1%nat) None compiled _ (Some 8%nat) eq_refl).
Defined.

Lemma apply_stylesheet_null_has_message_witness :
  exists w',
    apply_stylesheet_example (Some 2%nat) None compiled = Return None w' /\
    error_ (impl w') <> EmptyString.
Proof.
  eexists. split; [vm_compute; reflexivity|].
  exact (apply_stylesheet_null_has_message vformat_subset libxslt_apply_example
           (Some 2%nat) None compiled _ eq_refl).
Defined.

Lemma apply_stylesheet_resources_witness :
  exists w',
    apply_stylesheet_example (Some 2%nat) None compiled = Return None w' /\
    trace w' = [call_xsltFreeTransformContext; call_xmlFreeDoc (Some 9%nat)].
Proof.
  eexists. split; [vm_compute; reflexivity|].
  exact (proj1 (apply_stylesheet_resources vformat_subset libxslt_apply_example
                  (Some 2%nat) None compiled _ None eq_refl)).
Defined.

(** The clean transformation with one parameter, into a fresh document. *)
Lemma apply_into_outcomes_witness :
  exists result' w',
    Stylesheet.apply_into vformat_subset libxslt_apply_example
      {| TreeParser.doc_data := Some 1%nat |} TreeParser.document_empty
      (Some [("name"%string, "'value'"%string)]) compiled
    = Return (true, result') w' /\
    TreeParser.doc_data result' = Some 8%nat.
Proof.
  eexists. eexists. split; [vm_compute; reflexivity|].
  exact (proj2 (proj2 (apply_into_outcomes vformat_subset libxslt_apply_example
                         {| TreeParser.doc_data := Some 1%nat |}
                         TreeParser.document_empty _
                         (Some [("name"%string, "'value'"%string)]) compiled _ true
                         eq_refl))).
Defined.

End StylesheetFacts.
